(** * Finance Robot: transaction ingestion, categorization and aggregation

    A shallow embedding of the API server of the Finance Robot repository
    (the Express application with the routes [/transactions],
    [/transactions/import/csv], [/insights/totals], [/insights/summary] and
    [/insights/advice]) together with the properties its specification states.

    Modelling conventions.

    - A JavaScript [number] is an IEEE 754 binary64 value.  It is modelled by
      the Standard Library's [spec_float] at precision 53 and maximal exponent
      1024, so that sums are rounded exactly as the program rounds them and
      NaN, the infinities and the two zeros behave as in the program.
    - A JavaScript string is a sequence of UTF-16 code units.  The model
      covers the code units below 256 (ASCII and Latin-1), one [ascii] per
      code unit; [trim], [toLowerCase] and the case-insensitive regular
      expression follow ECMAScript on that range.
    - A value that can be [undefined] is an [option].
    - An object used as a dictionary is a [gmap] over its own keys.  A
      parsed CSV row is read at fixed keys only, none of which names a
      property of [Object.prototype], so the own keys decide every read.
      [byCategory] is read and written at keys that come from the data: a
      read of a key that is not an own key goes to [Object.prototype], and a
      write to [__proto__] goes to its setter.
    - The module-level array [transactions] is threaded explicitly through
      the request handlers. *)

From Stdlib Require Import ZArith Lia String Ascii List Permutation.
From Stdlib Require Import Floats.SpecFloat.
From stdpp Require Import gmap strings.

Open Scope string_scope.
Open Scope list_scope.

(** ** Numbers *)

Definition prec64 : Z := 53.
Definition emax64 : Z := 1024.

Definition number := spec_float.

Definition NaN : number := S754_nan.
Definition zero : number := S754_zero false.

Definition add : number -> number -> number := SFadd prec64 emax64.
Definition sub : number -> number -> number := SFsub prec64 emax64.
Definition div : number -> number -> number := SFdiv prec64 emax64.

(** Unary minus and [Math.abs]. *)
Definition neg : number -> number := SFopp.
Definition Math_abs : number -> number := SFabs.

(** [x > y] and [x < y]; both are false as soon as one side is NaN. *)
Definition gt (x y : number) : bool := SFltb y x.
Definition lt (x y : number) : bool := SFltb x y.

(** ToBoolean on a number: [0], [-0] and [NaN] are falsy. *)
Definition truthy_number (x : number) : bool :=
  match x with
  | S754_zero _ | S754_nan => false
  | _ => true
  end.

Definition isNaN (x : number) : bool :=
  match x with S754_nan => true | _ => false end.

(** The sign bit of a number that is not NaN. *)
Definition signbit (x : number) : bool :=
  match x with
  | S754_zero s | S754_infinity s | S754_finite s _ _ => s
  | S754_nan => false
  end.

(** The binary64 value nearest to an integer (ties to even). *)
Definition of_Z (n : Z) : number := binary_normalize prec64 emax64 n 0 false.

(** The binary64 value nearest to [n * 10 ^ e10] for [0 <= n]. *)
Definition of_decimal (n e10 : Z) : number :=
  match n with
  | Zpos p =>
      if (0 <=? e10)%Z then of_Z (n * 10 ^ e10)
      else div (S754_finite false p 0)
               (S754_finite false (Z.to_pos (10 ^ (- e10))) 0)
  | _ => zero
  end.

Definition with_sign (negative : bool) (x : number) : number :=
  if negative then neg x else x.

(** ** Strings *)

Definition code (c : ascii) : N := N_of_ascii c.

(** WhiteSpace and LineTerminator code units below 256. *)
Definition isWhiteSpace (c : ascii) : bool :=
  let n := code c in
  ((9 <=? n) && (n <=? 13) || (n =? 32) || (n =? 160))%N.

(** [String.prototype.toLowerCase], one code unit at a time. *)
Definition toLowerCase_char (c : ascii) : ascii :=
  let n := code c in
  if ((65 <=? n) && (n <=? 90)
      || (192 <=? n) && (n <=? 222) && negb (n =? 215))%N
  then ascii_of_N (n + 32) else c.

Fixpoint toLowerCase (s : string) : string :=
  match s with
  | EmptyString => EmptyString
  | String c s' => String (toLowerCase_char c) (toLowerCase s')
  end.

(** Canonicalize of a regular expression with the [i] flag and without the
    [u] flag: the upper-case code unit.  The two Latin-1 letters whose
    upper-case form lies above 255 (code units 181 and 255) and code unit
    223, whose upper-case form is two code units long, stand for themselves,
    which leaves the classes of equal canonical form unchanged. *)
Definition canonicalize (c : ascii) : ascii :=
  let n := code c in
  if ((97 <=? n) && (n <=? 122)
      || (224 <=? n) && (n <=? 254) && negb (n =? 247))%N
  then ascii_of_N (n - 32) else c.

Fixpoint trimStart (s : string) : string :=
  match s with
  | EmptyString => EmptyString
  | String c s' => if isWhiteSpace c then trimStart s' else s
  end.

Fixpoint trimEnd (s : string) : string :=
  match s with
  | EmptyString => EmptyString
  | String c s' =>
      match trimEnd s' with
      | EmptyString => if isWhiteSpace c then EmptyString else String c EmptyString
      | r => String c r
      end
  end.

Definition trim (s : string) : string := trimStart (trimEnd s).

(** ToBoolean on a string. *)
Definition truthy_string (s : string) : bool :=
  match s with EmptyString => false | _ => true end.

Definition startsWith (s p : string) : bool := String.prefix p s.

Fixpoint endsWith (s p : string) : bool :=
  String.eqb s p
  || match s with
     | EmptyString => false
     | String _ s' => endsWith s' p
     end.

Fixpoint includes (s needle : string) : bool :=
  String.prefix needle s
  || match s with
     | EmptyString => false
     | String _ s' => includes s' needle
     end.

(** [s.replace(/[...]/g, "")]: every code unit of the class is removed. *)
Fixpoint remove_class (cls : ascii -> bool) (s : string) : string :=
  match s with
  | EmptyString => EmptyString
  | String c s' =>
      if cls c then remove_class cls s' else String c (remove_class cls s')
  end.

(** [s.slice(0, n)]. *)
Definition slice0 (n : nat) (s : string) : string := String.substring 0 n s.

(** A regular expression that is an alternation of literal words, with the
    [i] flag: [matchesAt_i w s] holds when [w] matches at the start of [s],
    and [regexTest_i] is [RegExp.prototype.test], which tries every start. *)
Fixpoint matchesAt_i (w s : string) : bool :=
  match w, s with
  | EmptyString, _ => true
  | String _ _, EmptyString => false
  | String p w', String c s' =>
      Ascii.eqb (canonicalize p) (canonicalize c) && matchesAt_i w' s'
  end.

Fixpoint regexTest_i (alts : list string) (s : string) : bool :=
  existsb (fun w => matchesAt_i w s) alts
  || match s with
     | EmptyString => false
     | String _ s' => regexTest_i alts s'
     end.

(** ** [Number(string)]: the StringToNumber conversion *)

Definition digitValue (base : N) (c : ascii) : option Z :=
  let n := code c in
  let v :=
    if ((48 <=? n) && (n <=? 57))%N then Some (n - 48)%N
    else if ((97 <=? n) && (n <=? 102))%N then Some (n - 87)%N
    else if ((65 <=? n) && (n <=? 70))%N then Some (n - 55)%N
    else None in
  match v with
  | Some d => if (d <? base)%N then Some (Z.of_N d) else None
  | None => None
  end.

(** Reads the longest run of digits in [base], continuing the value [acc];
    returns the value, the number of digits read and the rest. *)
Fixpoint takeDigits (base : N) (s : string) (acc : Z) (count : Z)
  : Z * Z * string :=
  match s with
  | EmptyString => (acc, count, s)
  | String c s' =>
      match digitValue base c with
      | Some d => takeDigits base s' (acc * Z.of_N base + d)%Z (count + 1)%Z
      | None => (acc, count, s)
      end
  end.

(** ExponentPart (optional), which must reach the end of the string. *)
Definition parseExponent (s : string) : option Z :=
  match s with
  | EmptyString => Some 0%Z
  | String c s' =>
      if Ascii.eqb c "e" || Ascii.eqb c "E" then
        let '(negative, ds) :=
          match s' with
          | String "+" r => (false, r)
          | String "-" r => (true, r)
          | _ => (false, s')
          end in
        match takeDigits 10 ds 0 0 with
        | (v, n, EmptyString) =>
            if (0 <? n)%Z then Some (if negative then - v else v)%Z else None
        | _ => None
        end
      else None
  end.

(** StrUnsignedDecimalLiteral other than [Infinity]: the decimal mantissa and
    the power of ten it is scaled by. *)
Definition parseUnsignedDecimal (s : string) : option (Z * Z) :=
  let '(i, ni, r1) := takeDigits 10 s 0 0 in
  match r1 with
  | String "." r2 =>
      let '(m, nf, r3) := takeDigits 10 r2 i 0 in
      if (0 <? ni + nf)%Z then
        match parseExponent r3 with
        | Some e => Some (m, e - nf)%Z
        | None => None
        end
      else None
  | _ =>
      if (0 <? ni)%Z then
        match parseExponent r1 with
        | Some e => Some (i, e)
        | None => None
        end
      else None
  end.

Definition parseSignedDecimal (s : string) : number :=
  let '(negative, u) :=
    match s with
    | String "+" r => (false, r)
    | String "-" r => (true, r)
    | _ => (false, s)
    end in
  if String.eqb u "Infinity" then with_sign negative (S754_infinity false)
  else
    match parseUnsignedDecimal u with
    | Some (m, e) => with_sign negative (of_decimal m e)
    | None => NaN
    end.

(** NonDecimalIntegerLiteral: all of [ds] must be digits in [base]. *)
Definition parseRadix (base : N) (ds : string) : number :=
  match takeDigits base ds 0 0 with
  | (v, n, EmptyString) => if (0 <? n)%Z then of_Z v else NaN
  | _ => NaN
  end.

Definition StringToNumber (s : string) : number :=
  match trim s with
  | EmptyString => zero
  | String "0" (String "x" ds) | String "0" (String "X" ds) => parseRadix 16 ds
  | String "0" (String "o" ds) | String "0" (String "O" ds) => parseRadix 8 ds
  | String "0" (String "b" ds) | String "0" (String "B" ds) => parseRadix 2 ds
  | t => parseSignedDecimal t
  end.

(** ** Number to string

    [Number::toString] in radix 10: the shortest decimal numeral that reads
    back as the number and, among the shortest, the nearest to it. *)

Definition sameNumber (x y : number) : bool :=
  match SFcompare x y with Some Eq => true | _ => false end.

(** The [k] least significant decimal digits of [s], most significant
    first. *)
Fixpoint decimalDigits (k : nat) (s : Z) : string :=
  match k with
  | O => ""
  | S k' =>
      decimalDigits k' (s / 10)
      +:+ String (ascii_of_N (48 + Z.to_N (s mod 10))) ""
  end.

Fixpoint decimalLength (fuel : nat) (n : Z) : nat :=
  match fuel with
  | O => 1
  | S f => if (n <? 10)%Z then 1 else S (decimalLength f (n / 10))
  end.

(** The decimal representation of an integer that is not negative. *)
Definition decimalString (n : Z) : string :=
  decimalDigits (decimalLength 400 n) n.

(** The value [m * 2 ^ e] as a fraction, and a fraction times [10 ^ j]. *)
Definition fraction (m : positive) (e : Z) : Z * Z :=
  if (0 <=? e)%Z then (Zpos m * 2 ^ e, 1)%Z else (Zpos m, 2 ^ (- e))%Z.

Definition scale10 (q : Z * Z) (j : Z) : Z * Z :=
  let '(a, b) := q in
  if (0 <=? j)%Z then (a * 10 ^ j, b)%Z else (a, b * 10 ^ (- j))%Z.

(** The least [n], from the given one on, with [q < 10 ^ n]. *)
Fixpoint magnitude10 (fuel : nat) (q : Z * Z) (n : Z) : Z :=
  match fuel with
  | O => n
  | S f =>
      let '(a, b) := scale10 q (- n) in
      if (a <? b)%Z then n else magnitude10 f q (n + 1)
  end.

(** The digits [s] and their number [k], from [k] on, for a number [x] with
    value [q] and [10 ^ (n - 1) <= q < 10 ^ n]: [k] is the least number of
    digits for which [s * 10 ^ (n - k)] reads back as [x]; of the two
    neighbours of [q] with [k] digits the nearer one that reads back is
    taken, the even one in a tie. *)
Fixpoint shortestDigits (fuel : nat) (x : number) (q : Z * Z) (n k : Z)
  : Z * Z :=
  let '(a, b) := scale10 q (k - n) in
  let lo := (a / b)%Z in
  let r := (a mod b)%Z in
  let hi := (lo + 1)%Z in
  match fuel with
  | O => (lo, k)
  | S f =>
      let okLo := sameNumber (of_decimal lo (n - k)) x in
      let okHi := sameNumber (of_decimal hi (n - k)) x in
      if okLo && okHi then
        ((if (2 * r <? b)%Z then lo
          else if (b <? 2 * r)%Z then hi
          else if Z.even lo then lo else hi), k)
      else if okLo then (lo, k)
      else if okHi then (hi, k)
      else shortestDigits f x q n (k + 1)
  end.

(** The numeral for the digits [s], their number [k] and the exponent [n]:
    the value is [s * 10 ^ (n - k)]. *)
Definition formatDecimal (s k n : Z) : string :=
  let ds := decimalDigits (Z.to_nat k) s in
  if (-5 <=? n)%Z && (n <=? 21)%Z then
    if (k <=? n)%Z then
      ds +:+ string_of_list_ascii (repeat "0"%char (Z.to_nat (n - k)))
    else if (0 <? n)%Z then
      String.substring 0 (Z.to_nat n) ds +:+ "."
      +:+ String.substring (Z.to_nat n) (Z.to_nat (k - n)) ds
    else
      "0." +:+ string_of_list_ascii (repeat "0"%char (Z.to_nat (- n))) +:+ ds
  else
    let exponent :=
      (if (n <? 0)%Z then "e-" else "e+") +:+ decimalString (Z.abs (n - 1)) in
    if (k =? 1)%Z then ds +:+ exponent
    else String.substring 0 1 ds +:+ "."
         +:+ String.substring 1 (Z.to_nat (k - 1)) ds +:+ exponent.

Definition NumberToString (x : number) : string :=
  match x with
  | S754_nan => "NaN"
  | S754_zero _ => "0"
  | S754_infinity s => if s then "-Infinity" else "Infinity"
  | S754_finite sign m e =>
      let q := fraction m e in
      let n := magnitude10 640 q (-324) in
      let '(s, k) := shortestDigits 17 (S754_finite false m e) q n 1 in
      (if sign then "-" else "")
      +:+ (if (s =? 10 ^ k)%Z then formatDecimal 1 1 (n + 1)
           else formatDecimal s k n)
  end.

(** [Number(v)] and [String(v)] on a value that may be [undefined], and
    [v ?? d]. *)
Definition String_ (v : option string) : string :=
  match v with Some s => s | None => "undefined" end.

Definition nullish (v : option string) (d : string) : string :=
  match v with Some s => s | None => d end.

(** [a || b] on values that are a string or [undefined]. *)
Definition truthy (v : option string) : bool :=
  match v with Some s => truthy_string s | None => false end.

Definition or_else (a b : option string) : option string :=
  if truthy a then a else b.

Infix "|||" := or_else (at level 50, left associativity).

(** ** Types *)

Record Transaction := {
  tx_id : string;
  tx_date : string;      (* YYYY-MM-DD *)
  tx_name : string;
  tx_amount : number;    (* +income, -expense *)
  tx_category : string
}.

(** ** Helpers *)

Definition categorize (name : string) (amount : number) : string :=
  if negb (truthy_string (trim name)) then "Uncategorized" else
  let n := toLowerCase name in
  if gt amount zero then "Income"
  else if includes n "rent" then "Housing"
  else if includes n "grocery" || includes n "supermarket"
          || includes n "trader" || includes n "whole foods"
       then "Groceries"
  else if includes n "gas" || includes n "shell" || includes n "exxon"
          || includes n "bp"
       then "Gas"
  else if includes n "uber" || includes n "lyft" || includes n "taxi"
       then "Transport"
  else if includes n "netflix" || includes n "spotify" || includes n "hulu"
          || includes n "disney"
       then "Subscriptions"
  else if includes n "electric" || includes n "utility" || includes n "water"
          || includes n "coned" || includes n "pseg"
       then "Utilities"
  else if includes n "internet" || includes n "verizon"
          || includes n "optimum" || includes n "comcast"
       then "Internet"
  else if includes n "coffee" || includes n "starbucks"
          || includes n "dunkin"
       then "Coffee"
  else if includes n "chipotle" || includes n "mcdonald"
          || includes n "restaurant" || includes n "pizza"
       then "Dining"
  else "Uncategorized".

(** The character class [[,$()]]. *)
Definition amountPunctuation (c : ascii) : bool :=
  Ascii.eqb c "," || Ascii.eqb c "$" || Ascii.eqb c "(" || Ascii.eqb c ")".

Definition normalizeAmount (raw : string) : number :=
  let s := trim raw in
  let negative := startsWith s "(" && endsWith s ")" in
  let cleaned := remove_class amountPunctuation s in
  let n := StringToNumber cleaned in
  if negative then neg n else n.

(** ** The object [byCategory]

    [byCategory] is created by the object literal [{}]: its prototype is
    [Object.prototype], and its own properties hold what the loop assigns,
    a number or a string. *)

Inductive Primitive :=
  | Num (n : number)
  | Str (s : string).

(** What reading a property of [byCategory] can give. *)
Inductive Value :=
  | Undefined
  | Prim (p : Primitive)
  | NativeFunction (name : string)   (* a built-in function *)
  | ObjectPrototype.                 (* the object [Object.prototype] *)

(** The names of the properties of [Object.prototype]: its constructor, its
    methods and the accessor [__proto__]. *)
Definition objectPrototypeNames : list string :=
  [ "constructor"; "__defineGetter__"; "__defineSetter__"; "hasOwnProperty";
    "__lookupGetter__"; "__lookupSetter__"; "isPrototypeOf";
    "propertyIsEnumerable"; "toString"; "valueOf"; "__proto__";
    "toLocaleString" ].

Definition inheritedName (key : string) : bool :=
  existsb (String.eqb key) objectPrototypeNames.

(** [Object.prototype[key]]: the getter of [__proto__] gives the prototype
    of the object, [constructor] is the function [Object], and a method is
    a function of its own name. *)
Definition inherited (key : string) : Value :=
  if negb (inheritedName key) then Undefined
  else if String.eqb key "__proto__" then ObjectPrototype
  else if String.eqb key "constructor" then NativeFunction "Object"
  else NativeFunction key.

(** [o[key]]: the own property, or else the inherited one. *)
Definition getProperty (o : gmap string Primitive) (key : string) : Value :=
  match o !! key with
  | Some p => Prim p
  | None => inherited key
  end.

(** [o[key] = p] for a primitive [p]: the setter of [__proto__] ignores a
    value that is neither an object nor [null]; every other key becomes an
    own property. *)
Definition setProperty (o : gmap string Primitive) (key : string) (p : Primitive)
  : gmap string Primitive :=
  if String.eqb key "__proto__" then o else <[key := p]> o.

Definition ToBoolean (v : Value) : bool :=
  match v with
  | Undefined => false
  | Prim (Num x) => truthy_number x
  | Prim (Str s) => truthy_string s
  | NativeFunction _ | ObjectPrototype => true
  end.

(** The source text of a built-in function, as Node prints it. *)
Definition nativeSource (name : string) : string :=
  "function " +:+ name +:+ "() { [native code] }".

(** ToPrimitive: a function is converted to its source text and
    [Object.prototype] to ["[object Object]"]. *)
Definition ToPrimitive (v : Value) : option Primitive :=
  match v with
  | Undefined => None
  | Prim p => Some p
  | NativeFunction name => Some (Str (nativeSource name))
  | ObjectPrototype => Some (Str "[object Object]")
  end.

(** [v + y] for a number [y]: concatenation when [v] is a string or an
    object, addition otherwise ([undefined] is converted to NaN). *)
Definition plus (v : Value) (y : number) : Primitive :=
  match ToPrimitive v with
  | Some (Str s) => Str (s +:+ NumberToString y)
  | Some (Num x) => Num (add x y)
  | None => Num (add NaN y)
  end.

(** ** Aggregation: [GET /insights/totals] *)

Record Totals := {
  income : number;
  expenses : number;
  net : number;
  byCategory : gmap string Primitive
}.

(** [byCategory[cat] || 0]. *)
Definition bucket_or_zero (byCat : gmap string Primitive) (cat : string)
  : Value :=
  let v := getProperty byCat cat in
  if ToBoolean v then v else Prim (Num zero).

(** One iteration of the loop over [transactions]; the state is
    [(income, expenses, byCategory)]. *)
Definition totals_step (acc : number * number * gmap string Primitive)
    (t : Transaction) : number * number * gmap string Primitive :=
  let '(inc, expn, byCat) := acc in
  let cat := if truthy_string (tx_category t) then tx_category t
             else "Uncategorized" in
  if gt (tx_amount t) zero then (add inc (tx_amount t), expn, byCat)
  else
    let spend := Math_abs (tx_amount t) in
    (inc, add expn spend,
     setProperty byCat cat (plus (bucket_or_zero byCat cat) spend)).

Definition insights_totals (transactions : list Transaction) : Totals :=
  let '(inc, expn, byCat) := fold_left totals_step transactions (zero, zero, ∅) in
  {| income := inc; expenses := expn; net := sub inc expn; byCategory := byCat |}.

(** ** Insights: [GET /insights/summary] and [GET /insights/advice] *)

Record Summary := {
  s_income : number;
  s_expenses : number;
  s_net : number;
  s_savingsRate : number
}.

Definition summary_step (acc : number * number) (t : Transaction)
  : number * number :=
  let '(inc, expn) := acc in
  if gt (tx_amount t) zero then (add inc (tx_amount t), expn)
  else (inc, add expn (Math_abs (tx_amount t))).

Definition insights_summary (transactions : list Transaction) : Summary :=
  let '(inc, expn) := fold_left summary_step transactions (zero, zero) in
  let nt := sub inc expn in
  let savingsRate := if gt inc zero then div nt inc else zero in
  {| s_income := inc; s_expenses := expn; s_net := nt;
     s_savingsRate := savingsRate |}.

Inductive Severity := info | warn | urgent.

(** An advisory message.  Its [detail] text, which formats a number with
    [toFixed], is not part of the model. *)
Record Advice := { title : string; severity : Severity }.

Definition advice_step (acc : number * number) (t : Transaction)
  : number * number :=
  let '(inc, expn) := acc in
  if gt (tx_amount t) zero then (add inc (tx_amount t), expn)
  else (inc, add expn (Math_abs (tx_amount t))).

(** The four local variables of the advice handler once its loop has run. *)
Definition advice_locals (transactions : list Transaction) : Summary :=
  let '(inc, expn) := fold_left advice_step transactions (zero, zero) in
  let nt := sub inc expn in
  let savingsRate := if gt inc zero then div nt inc else zero in
  {| s_income := inc; s_expenses := expn; s_net := nt;
     s_savingsRate := savingsRate |}.

(** The literal [0.1]. *)
Definition one_tenth : number := Eval vm_compute in of_decimal 1 (-1).

Definition insights_advice (transactions : list Transaction) : list Advice :=
  let v := advice_locals transactions in
  let a1 :=
    if lt (s_net v) zero
    then [ {| title := "Spending exceeds income"; severity := urgent |} ]
    else [] in
  let a2 :=
    if gt (s_income v) zero && lt (s_savingsRate v) one_tenth
    then a1 ++ [ {| title := "Low savings rate"; severity := warn |} ]
    else a1 in
  match a2 with
  | [] => [ {| title := "You're on track"; severity := info |} ]
  | _ => a2
  end.

(** ** The in-memory store and the request handlers *)

(** The module-level array [transactions], and how many identifiers
    [crypto.randomUUID] has handed out so far. *)
Record Store := {
  transactions : list Transaction;
  uuids_drawn : nat
}.

(** The body of [POST /transactions].  Fields have their declared types and
    may be missing. *)
Inductive AmountField :=
  | AmountNumber (x : number)
  | AmountString (s : string)
  | AmountMissing.

Record ManualBody := {
  body_date : option string;
  body_name : option string;
  body_amount : AmountField
}.

(** [Number(amount)]. *)
Definition Number_ (a : AmountField) : number :=
  match a with
  | AmountNumber x => x
  | AmountString s => StringToNumber s
  | AmountMissing => NaN
  end.

(** A parsed CSV record: column name to cell text. *)
Definition Row := gmap string string.

Inductive ImportResponse :=
  | BadRequest (error : string) (detail : option string)
  | Imported (imported : nat) (sample : list Transaction).

Section Server.

(** [randomUUID n] is the identifier returned by the call number [n] of
    [crypto.randomUUID]. *)
Variable randomUUID : nat -> string.

(** [parse csvText] is what csv-parse, called with the options
    [columns: true], [skip_empty_lines: true] and [trim: true], passes to
    its callback: an error or the records. *)
Variable parse : string -> string + list Row.

(** [POST /transactions]: the transaction it builds. *)
Definition manual_tx (body : ManualBody) (uuid : string) : Transaction :=
  let cleanName := trim (nullish (body_name body) "") in
  let amountNum := Number_ (body_amount body) in
  {| tx_id := uuid;
     tx_date := slice0 10 (String_ (body_date body));
     tx_name := if truthy_string cleanName then cleanName
                else "(No description)";
     tx_amount := amountNum;
     tx_category := if truthy_string cleanName
                    then categorize cleanName amountNum
                    else "Uncategorized" |}.

Definition post_transactions (st : Store) (body : ManualBody)
  : Transaction * Store :=
  let tx := manual_tx body (randomUUID (uuids_drawn st)) in
  (tx, {| transactions := transactions st ++ [tx];
          uuids_drawn := S (uuids_drawn st) |}).

(** [POST /reset]. *)
Definition post_reset (st : Store) : Store :=
  {| transactions := []; uuids_drawn := uuids_drawn st |}.

(** Alias resolution at the head of the import loop. *)
Definition row_date (r : Row) : option string :=
  r !! "date" ||| r !! "Date" ||| r !! "TransactionDate"
  ||| r !! "Transaction Date" ||| r !! "Trans. Date".

Definition row_rawName (r : Row) : option string :=
  r !! "name" ||| r !! "Description" ||| r !! "Name" ||| r !! "Merchant"
  ||| r !! "Merchant Name".

Definition row_amountRaw (r : Row) : option string :=
  r !! "amount" ||| r !! "Amount" ||| r !! "Transaction Amount"
  ||| r !! "Amount (USD)" ||| r !! "Amount".

Definition row_bankCategory (r : Row) : option string :=
  r !! "Category" ||| r !! "Category".

(** [if (!date || amountRaw === undefined) continue;] *)
Definition row_skipped (r : Row) : bool :=
  negb (truthy (row_date r))
  || match row_amountRaw r with None => true | Some _ => false end.

Definition creditWords : list string :=
  ["payment"; "credit"; "refund"; "returned"; "return"].

Definition looksLikeCredit (cleanName : string) (bankCategory : option string)
  : bool :=
  regexTest_i creditWords cleanName
  || includes (toLowerCase (nullish bankCategory "")) "payment"
  || includes (toLowerCase (nullish bankCategory "")) "credit".

Definition signedAmount (credit : bool) (amountNum : number) : number :=
  if credit then Math_abs amountNum else neg (Math_abs amountNum).

(** The body of the import loop after the [continue] test. *)
Definition import_tx (r : Row) (uuid : string) : Transaction :=
  let date := row_date r in
  let rawName := row_rawName r in
  let amountRaw := row_amountRaw r in
  let bankCategory := row_bankCategory r in
  let cleanName := trim (nullish rawName "") in
  let amountNum := normalizeAmount (String_ amountRaw) in
  let signed := signedAmount (looksLikeCredit cleanName bankCategory) amountNum in
  let cleanBankCategory := trim (nullish bankCategory "") in
  let category :=
    if truthy_string cleanBankCategory then cleanBankCategory
    else if truthy_string cleanName then categorize cleanName signed
    else "Uncategorized" in
  {| tx_id := uuid;
     tx_date := slice0 10 (String_ date);
     tx_name := if truthy_string cleanName then cleanName
                else "(No description)";
     tx_amount := signed;
     tx_category := category |}.

(** One iteration of [for (const r of rows)]; the state is the store and
    the local array [imported]. *)
Definition import_step (acc : Store * list Transaction) (r : Row)
  : Store * list Transaction :=
  let '(st, imported) := acc in
  if row_skipped r then acc
  else
    let tx := import_tx r (randomUUID (uuids_drawn st)) in
    ({| transactions := transactions st ++ [tx];
        uuids_drawn := S (uuids_drawn st) |},
     imported ++ [tx]).

Definition import_rows (st : Store) (rows : list Row)
  : Store * list Transaction :=
  fold_left import_step rows (st, []).

(** [POST /transactions/import/csv]; [file] is the uploaded file decoded
    as UTF-8, when the request has one. *)
Definition post_import_csv (st : Store) (file : option string)
  : ImportResponse * Store :=
  match file with
  | None => (BadRequest "Missing file field 'file'" None, st)
  | Some csvText =>
      match parse csvText with
      | inl err => (BadRequest "CSV parse error" (Some err), st)
      | inr rows =>
          let '(st', imported) := import_rows st rows in
          (Imported (length imported) (take 5 imported), st')
      end
  end.

End Server.

(** ** Specification-side definitions

    The definitions below follow the words of the specification; the
    theorems compare them with the program above. *)

Fixpoint allWhiteSpace (s : string) : bool :=
  match s with
  | EmptyString => true
  | String c s' => isWhiteSpace c && allWhiteSpace s'
  end.

(** The fixed priority list of the categorization heuristic, after the rule
    on positive amounts: keyword set and label, in order. *)
Definition categoryRules : list (list string * string) :=
  [ (["rent"], "Housing");
    (["grocery"; "supermarket"; "trader"; "whole foods"], "Groceries");
    (["gas"; "shell"; "exxon"; "bp"], "Gas");
    (["uber"; "lyft"; "taxi"], "Transport");
    (["netflix"; "spotify"; "hulu"; "disney"], "Subscriptions");
    (["electric"; "utility"; "water"; "coned"; "pseg"], "Utilities");
    (["internet"; "verizon"; "optimum"; "comcast"], "Internet");
    (["coffee"; "starbucks"; "dunkin"], "Coffee");
    (["chipotle"; "mcdonald"; "restaurant"; "pizza"], "Dining") ].

(** First match wins; no match gives ["Uncategorized"]. *)
Fixpoint firstMatch (n : string) (rules : list (list string * string))
  : string :=
  match rules with
  | [] => "Uncategorized"
  | (keywords, label) :: rest =>
      if existsb (includes n) keywords then label else firstMatch n rest
  end.

Definition categorize_spec (name : string) (amount : number) : string :=
  if gt amount zero then "Income"
  else firstMatch (toLowerCase name) categoryRules.

(** The credit test of the import in the specification's words: the name,
    compared without regard to case, contains one of five words, or the bank
    category, compared without regard to case, contains one of two. *)
Definition looksLikeCredit_spec (cleanName bankCategory : string) : bool :=
  existsb (includes (toLowerCase cleanName))
          ["payment"; "credit"; "refund"; "returned"; "return"]
  || existsb (includes (toLowerCase bankCategory)) ["payment"; "credit"].

(** Words made of the letters [a] to [z] only. *)
Definition isLowerLetter (c : ascii) : bool :=
  ((97 <=? code c) && (code c <=? 122))%N.

Fixpoint lowerWord (w : string) : bool :=
  match w with
  | EmptyString => true
  | String c w' => isLowerLetter c && lowerWord w'
  end.

(** A property checked on each of the 256 code units of the model. *)
Definition allAscii (P : ascii -> bool) : bool :=
  forallb P (List.map ascii_of_nat (seq 0 256)).

(** A string without parentheses, and a string wrapped in parentheses. *)
Fixpoint noParentheses (s : string) : bool :=
  match s with
  | EmptyString => true
  | String c s' => negb (Ascii.eqb c "(") && negb (Ascii.eqb c ")")
                   && noParentheses s'
  end.

Definition parenthesized (a : string) : string := "(" +:+ a +:+ ")".

(** Alias resolution in the specification's words: the value of the first
    alias, in priority order, that is present and not empty. *)
Definition dateAliases : list string :=
  ["date"; "Date"; "TransactionDate"; "Transaction Date"; "Trans. Date"].

Definition amountAliases : list string :=
  ["amount"; "Amount"; "Transaction Amount"; "Amount (USD)"].

Fixpoint firstPresent (r : Row) (aliases : list string) : option string :=
  match aliases with
  | [] => None
  | k :: rest =>
      match r !! k with
      | Some v => if truthy_string v then Some v else firstPresent r rest
      | None => firstPresent r rest
      end
  end.

(** The transactions an import creates from the rows it does not skip, the
    first of them taking identifier number [n]. *)
Fixpoint importedOf (randomUUID : nat -> string) (n : nat) (rows : list Row)
  : list Transaction :=
  match rows with
  | [] => []
  | r :: rest =>
      if row_skipped r then importedOf randomUUID n rest
      else import_tx r (randomUUID n) :: importedOf randomUUID (S n) rest
  end.

(** Requests that change the store, and the store after a sequence of them
    starting from the empty store. *)
Inductive Request :=
  | ManualEntry (body : ManualBody)
  | ImportCsv (file : option string)
  | Reset.

Definition handle (randomUUID : nat -> string)
    (parse : string -> string + list Row) (st : Store) (req : Request) : Store :=
  match req with
  | ManualEntry body => snd (post_transactions randomUUID st body)
  | ImportCsv file => snd (post_import_csv randomUUID parse st file)
  | Reset => post_reset st
  end.

Definition run (randomUUID : nat -> string)
    (parse : string -> string + list Row) (reqs : list Request) : Store :=
  fold_left (handle randomUUID parse) reqs
            {| transactions := []; uuids_drawn := 0 |}.

(** Aggregation in the specification's words. *)

(** The floating-point sum of a list, added from left to right. *)
Definition sumOf (l : list number) : number := fold_left add l zero.

Definition isIncome (t : Transaction) : bool := gt (tx_amount t) zero.

Definition categoryOf (t : Transaction) : string :=
  if truthy_string (tx_category t) then tx_category t else "Uncategorized".

Definition magnitude (t : Transaction) : number := Math_abs (tx_amount t).

(** The amounts summed into [income], the magnitudes summed into [expenses]
    and those summed into the bucket of category [c], in collection order. *)
Definition incomeAmounts (l : list Transaction) : list number :=
  List.map tx_amount (List.filter isIncome l).

Definition expenseMagnitudes (l : list Transaction) : list number :=
  List.map magnitude (List.filter (fun t => negb (isIncome t)) l).

Definition categoryMagnitudes (c : string) (l : list Transaction) : list number :=
  List.map magnitude
    (List.filter (fun t => negb (isIncome t) && String.eqb (categoryOf t) c) l).

Definition byCategory_spec (l : list Transaction) (c : string) : option number :=
  match categoryMagnitudes c l with
  | [] => None
  | ms => Some (sumOf ms)
  end.

(** Numbers that are neither NaN nor carry a minus sign. *)
Definition nonneg (x : number) : bool :=
  match x with
  | S754_nan => false
  | S754_zero s | S754_infinity s | S754_finite s _ _ => negb s
  end.

(** Buckets.  The number a bucket counts as when it holds one, and the
    buckets the loop leaves under a key that [Object.prototype] does not
    have: none, or a number without a minus sign. *)
Definition numberOf (p : option Primitive) : number :=
  match p with Some (Num x) => x | _ => zero end.

Definition soundBucket (p : option Primitive) : bool :=
  match p with
  | None => true
  | Some (Num x) => nonneg x
  | Some (Str _) => false
  end.

(** The text that a key of [Object.prototype] other than [__proto__] reads
    as before the loop has written it, the text a bucket under such a key
    holds, and a text followed by the numerals of a list of numbers. *)
Definition inheritedText (key : string) : string :=
  nativeSource (if String.eqb key "constructor" then "Object" else key).

Definition textOf (key : string) (p : option Primitive) : string :=
  match p with Some (Str s) => s | _ => inheritedText key end.

Definition textBucket (p : option Primitive) : bool :=
  match p with
  | None => true
  | Some (Str s) => truthy_string s
  | Some (Num _) => false
  end.

Definition appendNumbers (s : string) (ms : list number) : string :=
  fold_left (fun acc m => acc +:+ NumberToString m) ms s.

Definition noNaN (l : list Transaction) : Prop :=
  Forall (fun t => isNaN (tx_amount t) = false) l.

(** A transaction with the given amount and category. *)
Definition mkTx (amount : number) (category : string) : Transaction :=
  {| tx_id := ""; tx_date := "2024-01-01"; tx_name := "x";
     tx_amount := amount; tx_category := category |}.

(** Numbers that are NaN or carry no minus sign: the values the two totals
    and the buckets can take. *)
Definition unsignedOrNaN (x : number) : bool := isNaN x || nonneg x.

Definition isZero (x : number) : bool :=
  match x with S754_zero _ => true | _ => false end.

(** Whole numbers.  [toInteger x] is the integer part of a finite [x]; an
    amount is whole when its magnitude is the binary64 value of the magnitude
    of its integer part.  Both zeros are whole; NaN and the infinities are
    not. *)
Definition toInteger (x : number) : Z :=
  match x with
  | S754_finite s m e =>
      cond_Zopp s (match e with
                   | Zneg k => Zpos m / 2 ^ Zpos k
                   | _ => Zpos m * 2 ^ e
                   end)%Z
  | _ => 0%Z
  end.

Definition wholePart (t : Transaction) : Z := toInteger (tx_amount t).

Definition wholeAmount (t : Transaction) : Prop :=
  magnitude t = of_Z (Z.abs (wholePart t)).

Definition wholeAmounts (l : list Transaction) : Prop := Forall wholeAmount l.

Definition sumZ (ks : list Z) : Z := fold_right Z.add 0%Z ks.

(** The sum of the magnitudes of the integer parts of the amounts. *)
Definition totalMagnitude (l : list Transaction) : Z :=
  sumZ (List.map (fun t => Z.abs (wholePart t)) l).

(** The number of binary digits of a positive integer. *)
Definition digits (p : positive) : Z := Zpos (digits2_pos p).

(** The binary64 representation of a positive integer below [2 ^ 53] with
    sign [s]: a 53-bit mantissa and the matching exponent. *)
Definition canonical (s : bool) (p : positive) : number :=
  S754_finite s (Z.to_pos (Zpos p * 2 ^ (53 - digits p))) (digits p - 53).

(** Three expenses of 0.1, 0.2 and 0.3 in one category. *)
Definition threeExpenses : list Transaction :=
  [ mkTx (StringToNumber "-0.1") "Food";
    mkTx (StringToNumber "-0.2") "Food";
    mkTx (StringToNumber "-0.3") "Food" ].

(** The collection of the specification's aggregation scenario. *)
Definition scenario : list Transaction :=
  [ mkTx (of_Z 1000) "Income";
    mkTx (of_Z (-200)) "Groceries";
    mkTx (of_Z (-50)) "Gas" ].

(** The same collection with a transaction of amount [-0], as the import
    stores for a row whose amount is 0. *)
Definition scenarioWithZero : list Transaction :=
  mkTx (S754_zero true) "Groceries" :: scenario.

(** The categories of the transactions that are not income. *)
Definition expenseCategories (l : list Transaction) : gset string :=
  list_to_set (List.map categoryOf (List.filter (fun t => negb (isIncome t)) l)).

(** No transaction that is not income is filed under a key of
    [Object.prototype]. *)
Definition plainExpenses (l : list Transaction) : bool :=
  forallb (fun t => isIncome t || negb (inheritedName (categoryOf t))) l.

(** What a bucket holds under its key: under a key that [Object.prototype]
    does not have, a number that is NaN or without a minus sign; under a key
    that it has, never [__proto__], a text that is not empty. *)
Definition bucketShape (key : string) (p : Primitive) : bool :=
  match p with
  | Num x => negb (inheritedName key) && unsignedOrNaN x
  | Str s =>
      inheritedName key && negb (String.eqb key "__proto__")
      && truthy_string s
  end.

(** Two expenses of 5 and 7 filed under the category "constructor", and one
    filed under "__proto__". *)
Definition constructorExpenses : list Transaction :=
  [ mkTx (of_Z (-5)) "constructor"; mkTx (of_Z (-7)) "constructor" ].

Definition protoExpense : list Transaction :=
  [ mkTx (of_Z (-5)) "__proto__" ].

(** The rows of the specification's import scenarios. *)
Definition wholeFoodsRow : Row :=
  {[ "date" := "2024-01-05"; "Description" := "Whole Foods Market";
     "Amount" := "54.32" ]}.

Definition paymentRow : Row :=
  {[ "Date" := "2024-02-01"; "Description" := "PAYMENT THANK YOU";
     "Amount (USD)" := "200.00" ]}.

(** Two rows of one bank category, the first with a malformed amount. *)
Definition malformedFeeRow : Row :=
  {[ "Date" := "2024-01-01"; "Description" := "Bank fee";
     "Amount" := "abc"; "Category" := "Fees" ]}.

Definition feeRow : Row :=
  {[ "Date" := "2024-01-02"; "Description" := "Bank fee";
     "Amount" := "5"; "Category" := "Fees" ]}.

Definition importedFees : list Transaction :=
  importedOf (fun _ => "id") 0 [malformedFeeRow; feeRow].

(** A parser that yields the Whole Foods row followed by a row with a date
    and no amount column, and the empty store. *)
Definition twoRowParser (csvText : string) : string + list Row :=
  inr [wholeFoodsRow; {[ "date" := "2024-01-06" ]}].

Definition emptyStore : Store := {| transactions := []; uuids_drawn := 0 |}.

(** ** The store over sequences of requests *)

(** The store after a sequence of requests starting from [st]. *)
Definition runFrom (randomUUID : nat -> string)
    (parse : string -> string + list Row) (st : Store) (reqs : list Request)
  : Store :=
  fold_left (handle randomUUID parse) reqs st.

Definition isReset (req : Request) : bool :=
  match req with Reset => true | _ => false end.

(** The labels the categorization heuristic can return. *)
Definition categoryLabels : list string :=
  [ "Uncategorized"; "Income"; "Housing"; "Groceries"; "Gas"; "Transport";
    "Subscriptions"; "Utilities"; "Internet"; "Coffee"; "Dining" ].

(** Identifiers that count their call: the call number [n] returns a text of
    [n] letters. *)
Definition countingUUID (n : nat) : string :=
  string_of_list_ascii (repeat "a"%char n).

(** A session: a manual entry, an import of two rows, a reset and another
    manual entry. *)
Definition sampleSession : list Request :=
  [ ManualEntry {| body_date := Some "2024-03-01T10:00:00Z";
                   body_name := Some "  Rent March ";
                   body_amount := AmountNumber (of_Z (-900)) |};
    ImportCsv (Some "csv");
    Reset;
    ManualEntry {| body_date := None; body_name := None;
                   body_amount := AmountString "12.5" |} ].

Definition nameAliases : list string :=
  ["name"; "Description"; "Name"; "Merchant"; "Merchant Name"].

(** The name the builders store for a cleaned name. *)
Definition storedName (cleanName : string) : string :=
  if truthy_string cleanName then cleanName else "(No description)".

(** The credit test of a row, on its cleaned name and its bank category. *)
Definition rowCredit (r : Row) : bool :=
  looksLikeCredit_spec (trim (nullish (row_rawName r) ""))
                       (nullish (r !! "Category") "").

(** The three advisory messages. *)
Definition spendingExceedsIncome : Advice :=
  {| title := "Spending exceeds income"; severity := urgent |}.
Definition lowSavingsRate : Advice :=
  {| title := "Low savings rate"; severity := warn |}.
Definition onTrack : Advice :=
  {| title := "You're on track"; severity := info |}.

Definition hasNaN (l : list Transaction) : bool :=
  existsb (fun t => isNaN (tx_amount t)) l.

(** ** Money texts *)

Definition isDigit (c : ascii) : bool :=
  match digitValue 10 c with Some _ => true | None => false end.

Fixpoint digitText (s : string) : bool :=
  match s with
  | EmptyString => true
  | String c s' => isDigit c && digitText s'
  end.

(** Texts made of digits, commas and dollar signs. *)
Fixpoint moneyText (s : string) : bool :=
  match s with
  | EmptyString => true
  | String c s' =>
      (isDigit c || Ascii.eqb c "," || Ascii.eqb c "$") && moneyText s'
  end.

(** The integer spelled by the decimal digits of a text, read after the
    digits that gave [acc]; other characters are passed over. *)
Fixpoint digitsValue (s : string) (acc : Z) : Z :=
  match s with
  | EmptyString => acc
  | String c s' =>
      match digitValue 10 c with
      | Some d => digitsValue s' (acc * 10 + d)%Z
      | None => digitsValue s' acc
      end
  end.

Fixpoint countDigits (s : string) : nat :=
  match s with
  | EmptyString => 0
  | String c s' => (if isDigit c then 1 else 0) + countDigits s'
  end.

Fixpoint noWhiteSpace (s : string) : bool :=
  match s with
  | EmptyString => true
  | String c s' => negb (isWhiteSpace c) && noWhiteSpace s'
  end.

(** A text whose first character is a digit or a dot, and whose second
    character, when there is one, is a digit or a dot as well. *)
Definition plainStart (t : string) : bool :=
  match t with
  | EmptyString => false
  | String c1 rest =>
      (isDigit c1 || Ascii.eqb c1 ".")
      && match rest with
         | EmptyString => true
         | String c2 _ => isDigit c2 || Ascii.eqb c2 "."
         end
  end.

(** ** The browser client *)

(** A number as it arrives through JSON: NaN and the infinities are sent as
    [null], and minus zero as zero. *)
Definition jsonNumber (x : number) : option number :=
  match x with
  | S754_nan | S754_infinity _ => None
  | S754_zero _ => Some zero
  | S754_finite _ _ _ => Some x
  end.

(** A transaction as the client holds it; the category is optional. *)
Record Tx := {
  c_id : string;
  c_date : string;
  c_name : string;
  c_amount : option number;
  c_category : option string
}.

(** What [GET /transactions] delivers for a stored transaction. *)
Definition received (t : Transaction) : Tx :=
  {| c_id := tx_id t; c_date := tx_date t; c_name := tx_name t;
     c_amount := jsonNumber (tx_amount t);
     c_category := Some (tx_category t) |}.

(** [Number.isFinite]. *)
Definition isFinite (x : number) : bool :=
  match x with
  | S754_zero _ | S754_finite _ _ _ => true
  | _ => false
  end.

(** The characters kept by [parseMoneyInput]: the class [[0-9.-]]. *)
Definition moneyInputChar (c : ascii) : bool :=
  isDigit c || Ascii.eqb c "." || Ascii.eqb c "-".

Definition parseMoneyInput (v : string) : number :=
  let cleaned := remove_class (fun c => negb (moneyInputChar c)) v in
  let n := StringToNumber cleaned in
  if isFinite n then n else NaN.

(** The [onChange] handler of the income field, on the state
    [incomeOverride]. *)
Definition onIncomeChange (incomeOverride : option number) (v : string)
  : option number :=
  if negb (truthy_string (trim v)) then None
  else
    let n := parseMoneyInput v in
    if negb (isNaN n) then Some n else incomeOverride.

(** [t.category?.trim() ? t.category : "Uncategorized"]. *)
Definition displayCategory (t : Tx) : string :=
  match c_category t with
  | Some c => if truthy_string (trim c) then c else "Uncategorized"
  | None => "Uncategorized"
  end.

(** [new Set(l)], in insertion order. *)
Fixpoint dedupe (l : list string) : list string :=
  match l with
  | [] => []
  | x :: rest =>
      x :: List.filter (fun y => negb (String.eqb x y)) (dedupe rest)
  end.

(** [Array.prototype.sort] without a comparison function, on distinct
    strings: ascending order of code units.  The sorted order of distinct
    strings is unique, so the sorting algorithm does not matter. *)
Fixpoint insertSorted (x : string) (l : list string) : list string :=
  match l with
  | [] => [x]
  | y :: rest => if String.leb x y then x :: l else y :: insertSorted x rest
  end.

Definition sortStrings (l : list string) : list string :=
  fold_right insertSorted [] l.

Definition categories (tx : list Tx) : list string :=
  sortStrings (dedupe (List.map displayCategory tx)).

Definition filteredTx (categoryFilter : string) (tx : list Tx) : list Tx :=
  if String.eqb categoryFilter "All" then tx
  else List.filter
         (fun t => String.eqb (displayCategory t) categoryFilter) tx.

(** Client-side specification definitions. *)

Fixpoint sortedStrings (l : list string) : bool :=
  match l with
  | a :: rest =>
      match rest with
      | b :: _ => String.leb a b && sortedStrings rest
      | [] => true
      end
  | [] => true
  end.

(** Texts made of digits, commas, dollar signs and dots. *)
Fixpoint moneyDotText (s : string) : bool :=
  match s with
  | EmptyString => true
  | String c s' =>
      (isDigit c || Ascii.eqb c "," || Ascii.eqb c "$" || Ascii.eqb c ".")
      && moneyDotText s'
  end.

Definition finiteOrNaN (x : number) : number := if isFinite x then x else NaN.

(** A few transactions as the client holds them. *)
Definition sampleTx : list Tx :=
  [ {| c_id := "1"; c_date := "2024-01-05"; c_name := "Whole Foods";
       c_amount := Some (of_Z (-54)); c_category := Some "Groceries" |};
    {| c_id := "2"; c_date := "2024-01-06"; c_name := "Shell";
       c_amount := Some (of_Z (-40)); c_category := Some "Gas" |};
    {| c_id := "3"; c_date := "2024-01-07"; c_name := "Trader Joe";
       c_amount := Some (of_Z (-20)); c_category := Some "Groceries" |};
    {| c_id := "4"; c_date := "2024-01-08"; c_name := "Misc";
       c_amount := None; c_category := Some "  " |} ].

(** An income override that is absent or a finite number. *)
Definition validOverride (o : option number) : bool :=
  match o with Some x => isFinite x | None => true end.

(** The text with everything but digits, dots and minus signs removed. *)
Definition moneyInputCleaned (v : string) : string :=
  remove_class (fun c => negb (moneyInputChar c)) v.

(** * Properties *)

(** Case analysis on the shape and the sign of a number; the cases that
    compute or contradict a hypothesis are closed. *)
Ltac number_cases x :=
  destruct x as [[]|[]| |[] ? ?]; cbn; intros;
  try discriminate; try reflexivity.

(** ** Strings *)

Lemma trimEnd_empty s : trimEnd s = "" <-> allWhiteSpace s = true.
Proof.
  induction s as [|c s IH]; simpl; [tauto|].
  destruct (trimEnd s) eqn:E, (isWhiteSpace c); simpl;
    rewrite <- ?IH; intuition congruence.
Qed.

Lemma trimStart_empty s : trimStart s = "" <-> allWhiteSpace s = true.
Proof.
  induction s as [|c s IH]; simpl; [tauto|].
  destruct (isWhiteSpace c); simpl; [exact IH | intuition congruence].
Qed.

Lemma allWhiteSpace_trimEnd s : allWhiteSpace (trimEnd s) = allWhiteSpace s.
Proof.
  induction s as [|c s IH]; simpl; [reflexivity|].
  destruct (trimEnd s) eqn:E.
  - apply trimEnd_empty in E. rewrite E.
    destruct (isWhiteSpace c) eqn:W; simpl; rewrite ?W; reflexivity.
  - simpl in *. rewrite IH. reflexivity.
Qed.

Lemma trim_truthy s : truthy_string (trim s) = negb (allWhiteSpace s).
Proof.
  unfold trim. rewrite <- (allWhiteSpace_trimEnd s).
  destruct (allWhiteSpace (trimEnd s)) eqn:E.
  - apply trimStart_empty in E. rewrite E. reflexivity.
  - destruct (trimStart (trimEnd s)) eqn:T; [|reflexivity].
    apply trimStart_empty in T. congruence.
Qed.

(** A property of code units that holds of each of the 256 holds of all. *)
Lemma allAscii_spec (P : ascii -> bool) :
  allAscii P = true -> forall c, P c = true.
Proof.
  unfold allAscii. rewrite forallb_forall. intros H c. apply H.
  rewrite <- (ascii_nat_embedding c). apply in_map, in_seq.
  pose proof (nat_ascii_bounded c). lia.
Qed.

Lemma toLowerCase_char_idempotent c :
  toLowerCase_char (toLowerCase_char c) = toLowerCase_char c.
Proof.
  assert (H : allAscii (fun c =>
            Ascii.eqb (toLowerCase_char (toLowerCase_char c))
                      (toLowerCase_char c)) = true) by (vm_compute; reflexivity).
  apply Ascii.eqb_eq, (allAscii_spec _ H c).
Qed.

Lemma isWhiteSpace_toLowerCase_char c :
  isWhiteSpace (toLowerCase_char c) = isWhiteSpace c.
Proof.
  assert (H : allAscii (fun c =>
            Bool.eqb (isWhiteSpace (toLowerCase_char c)) (isWhiteSpace c)) = true)
    by (vm_compute; reflexivity).
  apply Bool.eqb_prop, (allAscii_spec _ H c).
Qed.

Lemma toLowerCase_idempotent s : toLowerCase (toLowerCase s) = toLowerCase s.
Proof.
  induction s as [|c s IH]; [reflexivity|].
  cbn [toLowerCase]. rewrite toLowerCase_char_idempotent, IH. reflexivity.
Qed.

Lemma allWhiteSpace_toLowerCase s :
  allWhiteSpace (toLowerCase s) = allWhiteSpace s.
Proof.
  induction s as [|c s IH]; [reflexivity|].
  cbn [toLowerCase allWhiteSpace]. rewrite isWhiteSpace_toLowerCase_char, IH.
  reflexivity.
Qed.

(** ** The categorization heuristic *)

Lemma categorize_nonempty name amount : categorize name amount <> "".
Proof.
  unfold categorize.
  repeat match goal with
         | |- context [if ?b then _ else _] => destruct b
         end; discriminate.
Qed.

Lemma categorize_eq_spec (name : string) (amount : number) :
  categorize name amount =
    if allWhiteSpace name then "Uncategorized"
    else categorize_spec name amount.
Proof.
  unfold categorize, categorize_spec. rewrite trim_truthy, negb_involutive.
  destruct (allWhiteSpace name); [reflexivity|].
  destruct (gt amount zero); [reflexivity|].
  cbn [firstMatch categoryRules existsb].
  rewrite !orb_false_r, !orb_assoc. reflexivity.
Qed.

(** C1.  The heuristic returns ["Uncategorized"] for a name that is empty or
    all white space, whatever the amount and without looking at keywords;
    for any other name it returns ["Income"] when the amount is greater than
    zero, and otherwise the label of the first rule of the fixed priority
    list one of whose keywords occurs in the lower-cased name, or
    ["Uncategorized"] when no rule matches.  The case of the letters of the
    name plays no part. *)
Theorem categorize_first_match (name : string) (amount : number) :
  categorize name amount
  = (if allWhiteSpace name then "Uncategorized"
     else if gt amount zero then "Income"
     else firstMatch (toLowerCase name) categoryRules)
  /\ categorize (toLowerCase name) amount = categorize name amount.
Proof.
  split; [apply categorize_eq_spec|].
  rewrite !categorize_eq_spec. unfold categorize_spec.
  rewrite allWhiteSpace_toLowerCase, toLowerCase_idempotent. reflexivity.
Qed.

(** ** The credit test *)

(** A letter of a pattern matches a code unit under the [i] flag exactly
    when it equals the lower-cased code unit. *)
Lemma canonicalize_lower (p c : ascii) :
  isLowerLetter p = true ->
  Ascii.eqb (canonicalize p) (canonicalize c) = Ascii.eqb p (toLowerCase_char c).
Proof.
  intros Hp.
  assert (H : allAscii (fun p => allAscii (fun c =>
            implb (isLowerLetter p)
              (Bool.eqb (Ascii.eqb (canonicalize p) (canonicalize c))
                        (Ascii.eqb p (toLowerCase_char c))))) = true)
    by (vm_compute; reflexivity).
  pose proof (allAscii_spec _ (allAscii_spec _ H p) c) as E.
  rewrite Hp in E. simpl in E. apply Bool.eqb_prop in E. exact E.
Qed.

Lemma prefix_cons (a b : ascii) (w s : string) :
  String.prefix (String a w) (String b s) = Ascii.eqb a b && String.prefix w s.
Proof.
  simpl. destruct (ascii_dec a b) as [->|N].
  - rewrite Ascii.eqb_refl. reflexivity.
  - apply Ascii.eqb_neq in N. rewrite N. reflexivity.
Qed.

Lemma matchesAt_i_prefix (w s : string) :
  lowerWord w = true -> matchesAt_i w s = String.prefix w (toLowerCase s).
Proof.
  revert s. induction w as [|p w IH]; intros s Hw.
  - destruct s; reflexivity.
  - simpl in Hw. apply andb_prop in Hw as [Hp Hw].
    destruct s as [|c s]; [reflexivity|].
    cbn [matchesAt_i toLowerCase]. rewrite prefix_cons, IH by exact Hw.
    rewrite canonicalize_lower by exact Hp. reflexivity.
Qed.

Lemma existsb_orb {A} (f g : A -> bool) (l : list A) :
  existsb (fun x => f x || g x) l = existsb f l || existsb g l.
Proof.
  induction l as [|x l IH]; simpl; [reflexivity|].
  rewrite IH. destruct (f x), (g x), (existsb f l); reflexivity.
Qed.

Lemma existsb_ext_in {A} (f g : A -> bool) (l : list A) :
  (forall x, In x l -> f x = g x) -> existsb f l = existsb g l.
Proof.
  induction l as [|x l IH]; simpl; intros H; [reflexivity|].
  rewrite H, IH by auto. reflexivity.
Qed.

(** The regular expression with the [i] flag and the test on the lower-cased
    text agree on words of plain lower-case letters. *)
Lemma regexTest_i_includes (alts : list string) (s : string) :
  forallb lowerWord alts = true ->
  regexTest_i alts s = existsb (includes (toLowerCase s)) alts.
Proof.
  intros Hw.
  assert (Hm : forall t w, In w alts ->
            matchesAt_i w t = String.prefix w (toLowerCase t)).
  { intros t w Hin. apply matchesAt_i_prefix.
    rewrite forallb_forall in Hw. auto. }
  induction s as [|c s IH].
  - cbn [regexTest_i toLowerCase includes]. rewrite orb_false_r.
    apply existsb_ext_in. intros w Hin. rewrite orb_false_r. auto.
  - cbn [regexTest_i toLowerCase includes]. rewrite IH.
    rewrite (existsb_orb (fun w => String.prefix w _)).
    f_equal. apply existsb_ext_in. intros w Hin. apply (Hm (String c s)), Hin.
Qed.

Lemma looksLikeCredit_correct (cleanName : string) (bankCategory : option string) :
  looksLikeCredit cleanName bankCategory
  = looksLikeCredit_spec cleanName (nullish bankCategory "").
Proof.
  unfold looksLikeCredit, looksLikeCredit_spec.
  rewrite regexTest_i_includes by reflexivity.
  unfold creditWords. cbn [existsb]. rewrite !orb_false_r, !orb_assoc.
  reflexivity.
Qed.

Lemma row_bankCategory_eq (r : Row) : row_bankCategory r = r !! "Category".
Proof.
  unfold row_bankCategory, or_else. destruct (truthy (r !! "Category")); reflexivity.
Qed.

Lemma signbit_signedAmount (credit : bool) (n : number) :
  signbit (signedAmount credit n) = negb credit && negb (isNaN n).
Proof. destruct credit, n; reflexivity. Qed.

(** C2.  The amount of an imported transaction is [+|n|], with [n] the
    normalized amount, when the cleaned name contains one of payment, credit,
    refund, returned, return or the bank category contains payment or credit
    (both compared without regard to case), and [-|n|] in every other case.
    The sign of the raw amount plays no part: unless [n] is NaN the sign bit
    of the result is set exactly when the test fails, and negating [n]
    leaves the result unchanged. *)
Theorem import_amount_sign (r : Row) (uuid : string) :
  let cleanName := trim (nullish (row_rawName r) "") in
  let bankCategory := nullish (r !! "Category") "" in
  let n := normalizeAmount (String_ (row_amountRaw r)) in
  let credit := looksLikeCredit_spec cleanName bankCategory in
  tx_amount (import_tx r uuid) = (if credit then Math_abs n else neg (Math_abs n))
  /\ signbit (tx_amount (import_tx r uuid)) = negb credit && negb (isNaN n)
  /\ tx_amount (import_tx r uuid)
     = signedAmount credit (neg n).
Proof.
  cbn zeta. unfold import_tx. cbn [tx_amount].
  rewrite looksLikeCredit_correct, row_bankCategory_eq.
  split; [reflexivity|]. split; [apply signbit_signedAmount|].
  destruct (looksLikeCredit_spec _ _), (normalizeAmount _); reflexivity.
Qed.

(** ** Amount normalization *)

Lemma amountPunctuation_not_space c :
  amountPunctuation c = true -> isWhiteSpace c = false.
Proof.
  unfold amountPunctuation. intros H.
  repeat (apply orb_prop in H as [H|H]); apply Ascii.eqb_eq in H; subst;
    reflexivity.
Qed.

Lemma trimStart_trimEnd s : trimStart (trimEnd s) = trimEnd (trimStart s).
Proof.
  induction s as [|c s IH]; [reflexivity|].
  cbn [trimStart trimEnd]. destruct (isWhiteSpace c) eqn:W.
  - destruct (trimEnd s) eqn:E.
    + rewrite <- IH. reflexivity.
    + rewrite <- IH. cbn [trimStart]. rewrite W. reflexivity.
  - cbn [trimEnd]. destruct (trimEnd s); rewrite ?W; cbn [trimStart]; rewrite W;
      reflexivity.
Qed.

Lemma trimStart_remove s :
  trimStart (remove_class amountPunctuation (trimStart s))
  = trimStart (remove_class amountPunctuation s).
Proof.
  induction s as [|c s IH]; [reflexivity|].
  cbn [trimStart]. destruct (isWhiteSpace c) eqn:W; [|reflexivity].
  cbn [remove_class]. destruct (amountPunctuation c) eqn:P.
  - apply amountPunctuation_not_space in P. congruence.
  - cbn [trimStart]. rewrite W. exact IH.
Qed.

Lemma trimEnd_remove s :
  trimEnd (remove_class amountPunctuation (trimEnd s))
  = trimEnd (remove_class amountPunctuation s).
Proof.
  induction s as [|c s IH]; [reflexivity|].
  cbn [trimEnd]. destruct (trimEnd s) as [|d r] eqn:E.
  - cbn [remove_class trimEnd] in IH.
    destruct (isWhiteSpace c) eqn:W; cbn [remove_class].
    + destruct (amountPunctuation c) eqn:P.
      * apply amountPunctuation_not_space in P. congruence.
      * cbn [trimEnd]. rewrite <- IH, W. reflexivity.
    + destruct (amountPunctuation c) eqn:P; cbn [trimEnd remove_class].
      * exact IH.
      * rewrite <- IH, W. reflexivity.
  - cbn [remove_class] in *. destruct (amountPunctuation c).
    + exact IH.
    + cbn [trimEnd]. rewrite IH. reflexivity.
Qed.

Lemma trim_remove s :
  trim (remove_class amountPunctuation (trim s))
  = trim (remove_class amountPunctuation s).
Proof.
  unfold trim.
  rewrite (trimStart_trimEnd s), trimEnd_remove, trimStart_trimEnd,
    trimStart_remove, <- trimStart_trimEnd.
  reflexivity.
Qed.

Lemma StringToNumber_trim s t :
  trim s = trim t -> StringToNumber s = StringToNumber t.
Proof. unfold StringToNumber. intros ->. reflexivity. Qed.

Lemma append_cons c s t : String c s +:+ t = String c (s +:+ t).
Proof. reflexivity. Qed.

Lemma append_empty_r s : s +:+ "" = s.
Proof.
  induction s as [|c s IH]; [reflexivity|]. rewrite append_cons, IH. reflexivity.
Qed.

Lemma remove_class_app cls s t :
  remove_class cls (s +:+ t) = remove_class cls s +:+ remove_class cls t.
Proof.
  induction s as [|c s IH]; [reflexivity|].
  rewrite append_cons. cbn [remove_class]. rewrite IH.
  destruct (cls c); reflexivity.
Qed.

Lemma trimEnd_closing s : trimEnd (s +:+ ")") = s +:+ ")".
Proof.
  induction s as [|c s IH]; [reflexivity|].
  rewrite append_cons. cbn [trimEnd]. rewrite IH.
  destruct s; reflexivity.
Qed.

Lemma endsWith_app s p : endsWith (s +:+ p) p = true.
Proof.
  induction s as [|c s IH].
  - change ("" +:+ p) with p.
    destruct p; cbn [endsWith]; rewrite String.eqb_refl; reflexivity.
  - rewrite append_cons. cbn [endsWith]. rewrite IH. apply orb_true_r.
Qed.

Lemma noParentheses_trimStart s :
  noParentheses s = true -> noParentheses (trimStart s) = true.
Proof.
  induction s as [|c s IH]; [reflexivity|].
  cbn [trimStart]. destruct (isWhiteSpace c); [|tauto].
  cbn [noParentheses]. intros H. apply andb_prop in H as [_ H]. auto.
Qed.

Lemma noParentheses_trimEnd s :
  noParentheses s = true -> noParentheses (trimEnd s) = true.
Proof.
  induction s as [|c s IH]; [reflexivity|].
  cbn [trimEnd noParentheses]. intros H. apply andb_prop in H as [Hc H].
  specialize (IH H). destruct (trimEnd s).
  - destruct (isWhiteSpace c); [reflexivity|].
    cbn [noParentheses]. rewrite Hc. reflexivity.
  - cbn [noParentheses] in *. rewrite Hc, IH. reflexivity.
Qed.

Lemma startsWith_noParentheses s :
  noParentheses s = true -> startsWith s "(" = false.
Proof.
  destruct s as [|c s]; [reflexivity|].
  cbn [noParentheses]. intros H.
  apply andb_prop in H as [H _]. apply andb_prop in H as [H _].
  unfold startsWith. rewrite prefix_cons.
  rewrite Ascii.eqb_sym. apply negb_true_iff in H. rewrite H. reflexivity.
Qed.

Lemma normalizeAmount_plain a :
  noParentheses a = true ->
  normalizeAmount a = StringToNumber (remove_class amountPunctuation a).
Proof.
  intros H. unfold normalizeAmount.
  rewrite startsWith_noParentheses
    by (apply noParentheses_trimStart, noParentheses_trimEnd, H).
  cbn [andb]. apply StringToNumber_trim, trim_remove.
Qed.

Lemma parenthesized_eq a : parenthesized a = String "(" a +:+ ")".
Proof. reflexivity. Qed.

Lemma trim_parenthesized a : trim (parenthesized a) = parenthesized a.
Proof.
  rewrite parenthesized_eq. unfold trim. rewrite trimEnd_closing, append_cons.
  reflexivity.
Qed.

Lemma normalizeAmount_parenthesized a :
  normalizeAmount (parenthesized a)
  = neg (StringToNumber (remove_class amountPunctuation a)).
Proof.
  unfold normalizeAmount. rewrite trim_parenthesized.
  assert (S : startsWith (parenthesized a) "(" = true).
  { rewrite parenthesized_eq, append_cons. unfold startsWith.
    rewrite prefix_cons. destruct (a +:+ ")"); reflexivity. }
  assert (E : endsWith (parenthesized a) ")" = true)
    by (rewrite parenthesized_eq; apply endsWith_app).
  assert (R : remove_class amountPunctuation (parenthesized a)
              = remove_class amountPunctuation a).
  { unfold parenthesized. rewrite !remove_class_app.
    change (remove_class amountPunctuation "(") with "".
    change (remove_class amountPunctuation ")") with "".
    change ("" +:+ ?x) with x. apply append_empty_r. }
  rewrite S, E, R. reflexivity.
Qed.

Lemma lt_neg_zero (x : number) : lt (neg x) zero = gt x zero.
Proof. number_cases x. Qed.

(** C3 (as stated, refuted).  The text ["(-5)"] is wrapped in parentheses,
    yet its normalized amount is the positive number 5. *)
Lemma parenthesized_minus_five_is_positive :
  normalizeAmount "(-5)" = of_Z 5
  /\ gt (normalizeAmount "(-5)") zero = true
  /\ lt (normalizeAmount "(-5)") zero = false.
Proof. vm_compute. auto. Qed.

(** C3 (amended).  For a text [a] without parentheses, normalization is the
    number read from [a] once commas and dollar signs are removed, and
    normalizing [a] wrapped in parentheses gives the negation of that number;
    the wrapped text is therefore below zero exactly when [a] itself is above
    zero. *)
Theorem normalizeAmount_parentheses (a : string) :
  noParentheses a = true ->
  normalizeAmount a = StringToNumber (remove_class amountPunctuation a)
  /\ normalizeAmount (parenthesized a) = neg (normalizeAmount a)
  /\ lt (normalizeAmount (parenthesized a)) zero = gt (normalizeAmount a) zero.
Proof.
  intros H. rewrite normalizeAmount_parenthesized, normalizeAmount_plain by exact H.
  rewrite lt_neg_zero. auto.
Qed.

(** The theorem at the text ["$1,234.50"]. *)
Lemma normalizeAmount_parentheses_witness :
  noParentheses "$1,234.50" = true
  /\ normalizeAmount "$1,234.50"
     = StringToNumber (remove_class amountPunctuation "$1,234.50")
  /\ normalizeAmount (parenthesized "$1,234.50")
     = neg (normalizeAmount "$1,234.50")
  /\ lt (normalizeAmount (parenthesized "$1,234.50")) zero
     = gt (normalizeAmount "$1,234.50") zero.
Proof.
  split; [reflexivity|].
  apply (normalizeAmount_parentheses "$1,234.50"). reflexivity.
Defined.

(** ** Import: which rows are skipped *)

Lemma firstPresent_cons (r : Row) k rest :
  firstPresent r (k :: rest)
  = if truthy (r !! k) then r !! k else firstPresent r rest.
Proof. cbn [firstPresent]. unfold truthy. destruct (r !! k); reflexivity. Qed.

Lemma row_date_firstPresent (r : Row) :
  firstPresent r dateAliases = if truthy (row_date r) then row_date r else None.
Proof.
  unfold dateAliases, row_date, or_else. rewrite !firstPresent_cons.
  cbn [firstPresent].
  repeat match goal with
         | |- context [truthy (r !! ?k)] =>
             let E := fresh "E" in destruct (truthy (r !! k)) eqn:E; rewrite ?E
         end; reflexivity.
Qed.

Lemma row_amountRaw_firstPresent (r : Row) :
  match firstPresent r amountAliases with
  | Some a => row_amountRaw r = Some a
  | None => row_amountRaw r = r !! "Amount" /\ truthy (r !! "Amount") = false
  end.
Proof.
  unfold amountAliases, row_amountRaw, or_else. rewrite !firstPresent_cons.
  cbn [firstPresent].
  destruct (truthy (r !! "amount")) eqn:E1; rewrite ?E1.
  { destruct (r !! "amount"); [reflexivity | discriminate]. }
  destruct (truthy (r !! "Amount")) eqn:E2; rewrite ?E2.
  { destruct (r !! "Amount"); [reflexivity | discriminate]. }
  destruct (truthy (r !! "Transaction Amount")) eqn:E3; rewrite ?E3.
  { destruct (r !! "Transaction Amount"); [reflexivity | discriminate]. }
  destruct (truthy (r !! "Amount (USD)")) eqn:E4; rewrite ?E4.
  { destruct (r !! "Amount (USD)"); [reflexivity | discriminate]. }
  auto.
Qed.

Lemma row_skipped_iff (r : Row) :
  row_skipped r = true
  <-> firstPresent r dateAliases = None \/ row_amountRaw r = None.
Proof.
  unfold row_skipped. rewrite row_date_firstPresent, orb_true_iff.
  destruct (truthy (row_date r)) eqn:D; cbn [negb].
  - destruct (row_date r); [|discriminate].
    destruct (row_amountRaw r); intuition congruence.
  - intuition.
Qed.

(** C4 (as stated, refuted).  A row whose date resolves but which has no
    amount column is skipped: it produces no transaction. *)
Lemma dated_row_without_amount_is_skipped :
  firstPresent {[ "date" := "2024-01-05" ]} dateAliases = Some "2024-01-05"
  /\ row_skipped {[ "date" := "2024-01-05" ]} = true
  /\ importedOf (fun _ => "id") 0 [ {[ "date" := "2024-01-05" ]} ] = [].
Proof. vm_compute. auto. Qed.

Section ServerProperties.

Variable randomUUID : nat -> string.
Variable parse : string -> string + list Row.

Lemma import_step_fold (rows : list Row) (st : Store) (imp : list Transaction) :
  let new := importedOf randomUUID (uuids_drawn st) rows in
  fold_left (import_step randomUUID) rows (st, imp)
  = ({| transactions := transactions st ++ new;
        uuids_drawn := uuids_drawn st + length new |}, imp ++ new).
Proof.
  revert st imp. induction rows as [|r rows IH]; intros st imp; cbn zeta.
  - cbn [importedOf fold_left length]. rewrite !app_nil_r, Nat.add_0_r.
    destruct st; reflexivity.
  - cbn [importedOf fold_left import_step].
    destruct (row_skipped r); [apply IH|].
    rewrite IH. cbn [transactions uuids_drawn length].
    rewrite <- !app_assoc. cbn [app]. f_equal. f_equal. lia.
Qed.

Lemma import_rows_eq (st : Store) (rows : list Row) :
  let new := importedOf randomUUID (uuids_drawn st) rows in
  import_rows randomUUID st rows
  = ({| transactions := transactions st ++ new;
        uuids_drawn := uuids_drawn st + length new |}, new).
Proof. unfold import_rows. rewrite import_step_fold. reflexivity. Qed.

Lemma importedOf_length (n : nat) (rows : list Row) :
  length (importedOf randomUUID n rows)
  = length (List.filter (fun r => negb (row_skipped r)) rows).
Proof.
  revert n. induction rows as [|r rows IH]; intros n; [reflexivity|].
  cbn [importedOf List.filter]. destruct (row_skipped r); cbn [negb length];
    rewrite IH; reflexivity.
Qed.

(** C4 (amended).  A row is skipped exactly when no date alias has a
    non-empty value or the resolved amount is undefined; the resolved
    amount is the first non-empty value among the amount aliases when there
    is one, and is undefined when the row has none of the amount columns.
    The import creates one transaction for each row that is not skipped, in
    row order, appends them to the store and reports their number; skipped
    rows raise no error. *)
Theorem import_skips_rows (st : Store) (csvText : string) :
  (forall r : Row,
      row_skipped r = true
      <-> firstPresent r dateAliases = None \/ row_amountRaw r = None)
  /\ (forall (r : Row) a,
         firstPresent r amountAliases = Some a -> row_amountRaw r = Some a)
  /\ (forall r : Row,
         (forall k, In k amountAliases -> r !! k = None) ->
         row_amountRaw r = None)
  /\ match parse csvText with
     | inr rows =>
         let new := importedOf randomUUID (uuids_drawn st) rows in
         post_import_csv randomUUID parse st (Some csvText)
         = (Imported (length new) (take 5 new),
            {| transactions := transactions st ++ new;
               uuids_drawn := uuids_drawn st + length new |})
         /\ length new
            = length (List.filter (fun r => negb (row_skipped r)) rows)
     | inl _ => True
     end.
Proof.
  split; [exact row_skipped_iff|]. split; [|split].
  - intros r a H. pose proof (row_amountRaw_firstPresent r) as P.
    rewrite H in P. exact P.
  - intros r H. pose proof (row_amountRaw_firstPresent r) as P.
    assert (F : firstPresent r amountAliases = None).
    { unfold amountAliases. cbn [firstPresent].
      rewrite !H by (cbn; tauto). reflexivity. }
    rewrite F in P. destruct P as [-> _]. apply H. cbn; tauto.
  - unfold post_import_csv. destruct (parse csvText) as [err|rows]; [exact I|].
    cbn zeta. rewrite import_rows_eq. split; [reflexivity|].
    apply importedOf_length.
Qed.

(** C9.  When the document does not parse, the import answers with the one
    failure "CSV parse error" and leaves the store as it was: no
    transaction is created and no identifier is drawn. *)
Theorem import_parse_error_no_effect (st : Store) (csvText err : string) :
  parse csvText = inl err ->
  post_import_csv randomUUID parse st (Some csvText)
  = (BadRequest "CSV parse error" (Some err), st).
Proof. intros H. unfold post_import_csv. rewrite H. reflexivity. Qed.

End ServerProperties.

(** The theorem at a document of two rows, the second without an amount:
    one transaction is imported. *)
Lemma import_skips_rows_witness :
  firstPresent wholeFoodsRow amountAliases = Some "54.32"
  /\ row_amountRaw wholeFoodsRow = Some "54.32"
  /\ row_skipped {[ "date" := "2024-01-06" ]} = true
  /\ post_import_csv (fun _ => "id") twoRowParser emptyStore (Some "csv")
     = (Imported 1 [import_tx wholeFoodsRow "id"],
        {| transactions := [import_tx wholeFoodsRow "id"]; uuids_drawn := 1 |}).
Proof.
  destruct (import_skips_rows (fun _ => "id") twoRowParser emptyStore "csv")
    as (H1 & H2 & H3 & H4 & _).
  split; [reflexivity|]. split; [apply H2; reflexivity|].
  split; [apply H1; right; apply H3; intros k Hk;
          repeat (destruct Hk as [<-|Hk]; [reflexivity|]); destruct Hk|].
  exact H4.
Defined.

(** The theorem for a parser that rejects every document. *)
Lemma import_parse_error_no_effect_witness :
  (fun _ : string => @inl string (list Row) "Invalid Record Length") "a,b"
  = inl "Invalid Record Length"
  /\ post_import_csv (fun _ => "id")
       (fun _ : string => inl "Invalid Record Length")
       {| transactions := []; uuids_drawn := 0 |} (Some "a,b")
     = (BadRequest "CSV parse error" (Some "Invalid Record Length"),
        {| transactions := []; uuids_drawn := 0 |}).
Proof.
  split; [reflexivity|].
  apply (import_parse_error_no_effect (fun _ => "id")
           (fun _ : string => inl "Invalid Record Length")).
  reflexivity.
Defined.

(** ** Built transactions *)

Lemma import_tx_category_nonempty (r : Row) (uuid : string) :
  tx_category (import_tx r uuid) <> "".
Proof.
  unfold import_tx. cbn [tx_category].
  destruct (trim (nullish (row_bankCategory r) "")) eqn:B; cbn [truthy_string].
  - destruct (truthy_string _); [apply categorize_nonempty | discriminate].
  - discriminate.
Qed.

Lemma manual_tx_category_nonempty (body : ManualBody) (uuid : string) :
  tx_category (manual_tx body uuid) <> "".
Proof.
  unfold manual_tx. cbn [tx_category].
  destruct (truthy_string _); [apply categorize_nonempty | discriminate].
Qed.

Lemma importedOf_categories randomUUID (n : nat) (rows : list Row) :
  Forall (fun t => tx_category t <> "") (importedOf randomUUID n rows).
Proof.
  revert n. induction rows as [|r rows IH]; intros n; cbn [importedOf].
  - constructor.
  - destruct (row_skipped r); [apply IH|].
    constructor; [apply import_tx_category_nonempty | apply IH].
Qed.

Lemma handle_categories randomUUID parse (st : Store) (req : Request) :
  Forall (fun t => tx_category t <> "") (transactions st) ->
  Forall (fun t => tx_category t <> "")
         (transactions (handle randomUUID parse st req)).
Proof.
  intros H. destruct req as [body|[csvText|]|]; cbn [handle].
  - cbn. apply Forall_app. split; [exact H|].
    constructor; [apply manual_tx_category_nonempty | constructor].
  - unfold post_import_csv. destruct (parse csvText) as [err|rows]; [exact H|].
    rewrite import_rows_eq. cbn. apply Forall_app. split; [exact H|].
    apply importedOf_categories.
  - exact H.
  - constructor.
Qed.

Lemma run_categories randomUUID parse (reqs : list Request) :
  Forall (fun t => tx_category t <> "")
         (transactions (run randomUUID parse reqs)).
Proof.
  unfold run.
  assert (G : forall st,
             Forall (fun t => tx_category t <> "") (transactions st) ->
             Forall (fun t => tx_category t <> "")
                    (transactions (fold_left (handle randomUUID parse) reqs st))).
  { induction reqs as [|req reqs IH]; intros st H; [exact H|].
    cbn [fold_left]. apply IH, handle_categories, H. }
  apply G. constructor.
Qed.

(** C5.  The category of a built transaction is never empty.  A manual entry
    gets the heuristic applied to its cleaned name and its amount when the
    cleaned name is not empty, and ["Uncategorized"] otherwise.  An imported
    row gets its trimmed bank category when that is not empty; else the
    heuristic applied to its cleaned name and its signed amount when the
    cleaned name is not empty; else ["Uncategorized"].  Hence every
    transaction in the store, after any sequence of requests, has a category
    that is not empty. *)
Theorem category_resolution :
  (forall (body : ManualBody) (uuid : string),
      let tx := manual_tx body uuid in
      let cleanName := trim (nullish (body_name body) "") in
      tx_category tx <> ""
      /\ tx_category tx
         = if truthy_string cleanName then categorize cleanName (tx_amount tx)
           else "Uncategorized")
  /\ (forall (r : Row) (uuid : string),
         let tx := import_tx r uuid in
         let bank := trim (nullish (r !! "Category") "") in
         let cleanName := trim (nullish (row_rawName r) "") in
         tx_category tx <> ""
         /\ tx_category tx
            = if truthy_string bank then bank
              else if truthy_string cleanName
                   then categorize cleanName (tx_amount tx)
                   else "Uncategorized")
  /\ (forall randomUUID parse (reqs : list Request),
         Forall (fun t => tx_category t <> "")
                (transactions (run randomUUID parse reqs))).
Proof.
  split; [|split].
  - intros body uuid. cbn zeta.
    split; [apply manual_tx_category_nonempty | reflexivity].
  - intros r uuid. cbn zeta. split; [apply import_tx_category_nonempty|].
    unfold import_tx. cbn [tx_category tx_amount].
    rewrite row_bankCategory_eq. reflexivity.
  - apply run_categories.
Qed.

(** C8.  A manual entry stores the amount it was given, coerced to a number
    and with no sign inference: a number is stored as it is.  The stored name
    is the trimmed name, or ["(No description)"] when the name is missing,
    empty or all white space, in which case the category is
    ["Uncategorized"] whatever the amount; otherwise the category is the
    heuristic's.  The handler appends exactly this transaction to the store.
    For the entry with date 2024-03-01, empty name and amount -10 the name is
    ["(No description)"] and the category ["Uncategorized"]. *)
Theorem manual_entry_verbatim :
  (forall (date name : option string) (a : AmountField) (uuid : string),
      let tx := manual_tx {| body_date := date; body_name := name;
                             body_amount := a |} uuid in
      let nm := nullish name "" in
      tx_amount tx
      = match a with
        | AmountNumber x => x
        | AmountString s => StringToNumber s
        | AmountMissing => NaN
        end
      /\ tx_name tx = (if allWhiteSpace nm then "(No description)" else trim nm)
      /\ tx_category tx
         = (if allWhiteSpace nm then "Uncategorized"
            else categorize (trim nm) (tx_amount tx)))
  /\ (forall randomUUID (st : Store) (body : ManualBody),
         let tx := manual_tx body (randomUUID (uuids_drawn st)) in
         post_transactions randomUUID st body
         = (tx, {| transactions := transactions st ++ [tx];
                   uuids_drawn := S (uuids_drawn st) |}))
  /\ (forall uuid,
         let tx := manual_tx {| body_date := Some "2024-03-01";
                                body_name := Some "";
                                body_amount := AmountNumber (of_Z (-10)) |} uuid in
         tx_name tx = "(No description)"
         /\ tx_category tx = "Uncategorized"
         /\ tx_amount tx = of_Z (-10)
         /\ tx_date tx = "2024-03-01").
Proof.
  split; [|split].
  - intros date name a uuid. cbn zeta. unfold manual_tx.
    cbn [tx_amount tx_name tx_category body_name body_amount Number_].
    rewrite trim_truthy. destruct (allWhiteSpace (nullish name "")), a; auto.
  - intros. reflexivity.
  - intros uuid. cbn zeta. repeat split.
Qed.

(** ** Aggregation *)

Lemma totals_step_income_expenses acc t :
  let '(i, e, b) := totals_step acc t in
  (i, e) = summary_step (fst (fst acc), snd (fst acc)) t.
Proof.
  destruct acc as [[i e] b]. unfold totals_step, summary_step. cbn [fst snd].
  destruct (gt (tx_amount t) zero); reflexivity.
Qed.

Lemma totals_fold_summary (l : list Transaction) i e b :
  fst (fold_left totals_step l (i, e, b)) = fold_left summary_step l (i, e).
Proof.
  revert i e b. induction l as [|t l IH]; intros i e b; [reflexivity|].
  cbn [fold_left].
  pose proof (totals_step_income_expenses (i, e, b) t) as H.
  destruct (totals_step (i, e, b) t) as [[i' e'] b'].
  cbn [fst snd] in H. rewrite <- H. apply IH.
Qed.

Lemma summary_fold_sums (l : list Transaction) i e :
  fold_left summary_step l (i, e)
  = (fold_left add (incomeAmounts l) i, fold_left add (expenseMagnitudes l) e).
Proof.
  revert i e. induction l as [|t l IH]; intros i e; [reflexivity|].
  cbn [fold_left]. unfold summary_step at 2.
  unfold incomeAmounts, expenseMagnitudes. cbn [List.filter].
  fold (isIncome t). destruct (isIncome t); cbn [negb List.map fold_left];
    rewrite IH; reflexivity.
Qed.

(** C10.  The three aggregation loops compute the same income, expenses and
    net on every collection, and the summary and the advice handler the same
    savings rate. *)
Theorem aggregation_loops_agree (l : list Transaction) :
  income (insights_totals l) = s_income (insights_summary l)
  /\ expenses (insights_totals l) = s_expenses (insights_summary l)
  /\ net (insights_totals l) = s_net (insights_summary l)
  /\ advice_locals l = insights_summary l.
Proof.
  unfold insights_totals, insights_summary, advice_locals.
  pose proof (totals_fold_summary l zero zero ∅) as H.
  destruct (fold_left totals_step l (zero, zero, ∅)) as [[i e] b].
  cbn [fst] in H. rewrite <- H.
  change advice_step with summary_step. rewrite <- H.
  cbn. auto.
Qed.

(** *** Sums of numbers without a minus sign *)

Lemma iter_pos_invariant {A} (P : A -> Prop) (f : A -> A) :
  (forall x, P x -> P (f x)) -> forall n x, P x -> P (SpecFloat.iter_pos f n x).
Proof. intros Hf. induction n; cbn [SpecFloat.iter_pos]; auto. Qed.

Lemma shr_1_nonneg mrs : (0 <= shr_m mrs)%Z -> (0 <= shr_m (shr_1 mrs))%Z.
Proof.
  destruct mrs as [m r s]. cbn [shr_m shr_1].
  destruct m as [|[p|p|]|[p|p|]]; cbn [shr_m]; lia.
Qed.

Lemma shr_fexp_nonneg m e l :
  (0 <= m)%Z -> (0 <= shr_m (fst (shr_fexp prec64 emax64 m e l)))%Z.
Proof.
  intros H. unfold shr_fexp, shr.
  assert (H0 : (0 <= shr_m (shr_record_of_loc m l))%Z)
    by (destruct l as [|[]]; exact H).
  destruct (_ - e)%Z; cbn [fst]; try exact H0.
  apply iter_pos_invariant; [apply shr_1_nonneg | exact H0].
Qed.

Lemma round_nearest_even_nonneg m l :
  (0 <= m)%Z -> (0 <= round_nearest_even m l)%Z.
Proof.
  intros H. unfold round_nearest_even.
  destruct l as [|[]]; try destruct (Z.even m); lia.
Qed.

Lemma binary_round_aux_nonneg m e l :
  (0 <= m)%Z -> nonneg (binary_round_aux prec64 emax64 false m e l) = true.
Proof.
  intros H. unfold binary_round_aux.
  pose proof (shr_fexp_nonneg m e l H) as H1.
  destruct (shr_fexp prec64 emax64 m e l) as [mrs' e']. cbn [fst] in H1.
  pose proof (shr_fexp_nonneg _ e' loc_Exact
                (round_nearest_even_nonneg _ (loc_of_shr_record mrs') H1)) as H2.
  destruct (shr_fexp prec64 emax64 _ e' loc_Exact) as [mrs'' e''].
  cbn [fst] in H2. destruct (shr_m mrs''); [reflexivity| |lia].
  destruct (e'' <=? emax64 - prec64)%Z; reflexivity.
Qed.

Lemma binary_round_nonneg m e :
  nonneg (binary_round prec64 emax64 false m e) = true.
Proof.
  unfold binary_round. destruct (shl_align _ _ _) as [mz ez].
  apply binary_round_aux_nonneg. lia.
Qed.

Lemma add_nonneg x y :
  nonneg x = true -> nonneg y = true -> nonneg (add x y) = true.
Proof.
  destruct x as [[]|[]| |[] mx ex], y as [[]|[]| |[] my ey];
    cbn [nonneg negb]; try discriminate; try reflexivity; intros _ _.
  unfold add, SFadd. cbn [cond_Zopp Z.add binary_normalize].
  apply binary_round_nonneg.
Qed.

Lemma abs_nonneg x : isNaN x = false -> nonneg (Math_abs x) = true.
Proof. destruct x; cbn; intros H; congruence || reflexivity. Qed.

Lemma nonneg_falsy x : nonneg x = true -> truthy_number x = false -> x = zero.
Proof. number_cases x. Qed.

Lemma inheritedName_proto : inheritedName "__proto__" = true.
Proof. reflexivity. Qed.

Lemma plain_not_proto c :
  inheritedName c = false -> String.eqb c "__proto__" = false.
Proof.
  intros H. destruct (String.eqb_spec c "__proto__") as [->|]; [|reflexivity].
  rewrite inheritedName_proto in H. discriminate H.
Qed.

Lemma setProperty_lookup_ne (o : gmap string Primitive) k p c :
  k <> c -> setProperty o k p !! c = o !! c.
Proof.
  intros H. unfold setProperty. destruct (String.eqb k "__proto__");
    [reflexivity | apply lookup_insert_ne, H].
Qed.

Lemma setProperty_lookup (o : gmap string Primitive) c p :
  String.eqb c "__proto__" = false -> setProperty o c p !! c = Some p.
Proof. intros H. unfold setProperty. rewrite H. apply lookup_insert_eq. Qed.

(** Under a key that [Object.prototype] does not have, [byCategory[cat] || 0]
    is the number in the bucket, or zero. *)
Lemma bucket_or_zero_nonneg (b : gmap string Primitive) c :
  inheritedName c = false -> soundBucket (b !! c) = true ->
  bucket_or_zero b c = Prim (Num (numberOf (b !! c)))
  /\ nonneg (numberOf (b !! c)) = true.
Proof.
  intros Hc Hb. unfold bucket_or_zero, getProperty, inherited.
  rewrite Hc. cbn [negb].
  destruct (b !! c) as [[x|s]|]; cbn in *; [|discriminate|auto].
  destruct (truthy_number x) eqn:T; [auto|].
  rewrite (nonneg_falsy x Hb T). auto.
Qed.

Lemma categoryMagnitudes_cons c t l :
  categoryMagnitudes c (t :: l)
  = if negb (isIncome t) && String.eqb (categoryOf t) c
    then magnitude t :: categoryMagnitudes c l
    else categoryMagnitudes c l.
Proof.
  unfold categoryMagnitudes. cbn [List.filter].
  destruct (negb (isIncome t) && String.eqb (categoryOf t) c); reflexivity.
Qed.

Lemma totals_fold_byCategory (l : list Transaction) i e
    (b : gmap string Primitive) c :
  inheritedName c = false ->
  noNaN l ->
  soundBucket (b !! c) = true ->
  snd (fold_left totals_step l (i, e, b)) !! c
  = match categoryMagnitudes c l with
    | [] => b !! c
    | ms => Some (Num (fold_left add ms (numberOf (b !! c))))
    end.
Proof.
  intros Hc. revert i e b.
  induction l as [|t l IH]; intros i e b Hl Hb; [reflexivity|].
  inversion Hl as [|? ? Ht Hl']; subst.
  cbn [fold_left]. rewrite categoryMagnitudes_cons.
  unfold totals_step at 2. fold (isIncome t) (categoryOf t) (magnitude t).
  destruct (isIncome t); cbn [negb andb]; [apply IH; assumption|].
  destruct (String.eqb_spec (categoryOf t) c) as [E|Hne].
  - rewrite E in *.
    destruct (bucket_or_zero_nonneg b c Hc Hb) as [Eb Nb].
    rewrite Eb. cbn [plus ToPrimitive].
    pose proof (setProperty_lookup b c
                  (Num (add (numberOf (b !! c)) (magnitude t)))
                  (plain_not_proto c Hc)) as L.
    rewrite IH; [|assumption|].
    2:{ rewrite L. cbn [soundBucket].
        apply add_nonneg; [exact Nb | apply abs_nonneg, Ht]. }
    rewrite L. cbn [numberOf fold_left].
    destruct (categoryMagnitudes c l); reflexivity.
  - rewrite IH; [|assumption|];
      rewrite setProperty_lookup_ne by exact Hne; [reflexivity | exact Hb].
Qed.

Lemma insights_totals_eq (l : list Transaction) :
  insights_totals l
  = let f := fold_left totals_step l (zero, zero, ∅) in
    {| income := fst (fst f); expenses := snd (fst f);
       net := sub (fst (fst f)) (snd (fst f)); byCategory := snd f |}.
Proof.
  unfold insights_totals.
  destruct (fold_left totals_step l (zero, zero, ∅)) as [[i e] b]. reflexivity.
Qed.

Lemma totals_income (l : list Transaction) :
  income (insights_totals l) = sumOf (incomeAmounts l).
Proof.
  rewrite insights_totals_eq. cbn [income].
  rewrite totals_fold_summary, summary_fold_sums. reflexivity.
Qed.

Lemma totals_expenses (l : list Transaction) :
  expenses (insights_totals l) = sumOf (expenseMagnitudes l).
Proof.
  rewrite insights_totals_eq. cbn [expenses].
  rewrite totals_fold_summary, summary_fold_sums. reflexivity.
Qed.

Lemma totals_net (l : list Transaction) :
  net (insights_totals l)
  = sub (income (insights_totals l)) (expenses (insights_totals l)).
Proof. rewrite insights_totals_eq. reflexivity. Qed.

Lemma totals_byCategory (l : list Transaction) (c : string) :
  inheritedName c = false -> noNaN l ->
  byCategory (insights_totals l) !! c = Num <$> byCategory_spec l c.
Proof.
  intros Hc Hl. rewrite insights_totals_eq. cbn [byCategory].
  rewrite totals_fold_byCategory
    by (exact Hc || exact Hl || (rewrite lookup_empty; reflexivity)).
  unfold byCategory_spec, sumOf. rewrite lookup_empty.
  destruct (categoryMagnitudes c l); reflexivity.
Qed.

Lemma add_unsignedOrNaN x y :
  unsignedOrNaN x = true -> unsignedOrNaN y = true ->
  unsignedOrNaN (add x y) = true.
Proof.
  unfold unsignedOrNaN. intros Hx Hy.
  destruct (isNaN x) eqn:Nx; [destruct x; try discriminate; reflexivity|].
  destruct (isNaN y) eqn:Ny;
    [destruct y; try discriminate; destruct x; reflexivity|].
  cbn [orb] in *. rewrite (add_nonneg x y Hx Hy). apply orb_true_r.
Qed.

Lemma add_zero_r x : unsignedOrNaN x = true -> add x zero = x.
Proof. number_cases x. Qed.

Lemma fold_add_unsignedOrNaN (ms : list number) acc :
  Forall (fun m => unsignedOrNaN m = true) ms ->
  unsignedOrNaN acc = true ->
  unsignedOrNaN (fold_left add ms acc) = true.
Proof.
  revert acc. induction ms as [|m ms IH]; intros acc Hms Hacc; [exact Hacc|].
  inversion Hms; subst. cbn [fold_left]. apply IH; [assumption|].
  apply add_unsignedOrNaN; assumption.
Qed.

Lemma magnitude_unsignedOrNaN t : unsignedOrNaN (magnitude t) = true.
Proof. unfold magnitude. destruct (tx_amount t); reflexivity. Qed.

Lemma expenseMagnitudes_unsignedOrNaN l :
  Forall (fun m => unsignedOrNaN m = true) (expenseMagnitudes l).
Proof.
  unfold expenseMagnitudes. apply List.Forall_forall. intros m Hm.
  apply List.in_map_iff in Hm as (t & <- & _). apply magnitude_unsignedOrNaN.
Qed.

Lemma isZero_not_income t : isZero (tx_amount t) = true -> isIncome t = false.
Proof. unfold isIncome. number_cases (tx_amount t). Qed.

Lemma isZero_magnitude t : isZero (tx_amount t) = true -> magnitude t = zero.
Proof. unfold magnitude. number_cases (tx_amount t). Qed.

Lemma filter_app_cons {A} (f : A -> bool) l1 x l2 :
  List.filter f (l1 ++ x :: l2)
  = List.filter f l1 ++ (if f x then [x] else []) ++ List.filter f l2.
Proof. rewrite List.filter_app. cbn [List.filter]. destruct (f x); reflexivity. Qed.

(** A transaction whose amount is zero changes neither total. *)
Lemma zero_amount_invisible (l1 l2 : list Transaction) (t : Transaction) :
  isZero (tx_amount t) = true ->
  income (insights_totals (l1 ++ t :: l2)) = income (insights_totals (l1 ++ l2))
  /\ expenses (insights_totals (l1 ++ t :: l2))
     = expenses (insights_totals (l1 ++ l2))
  /\ net (insights_totals (l1 ++ t :: l2)) = net (insights_totals (l1 ++ l2)).
Proof.
  intros Hz. pose proof (isZero_not_income t Hz) as Hi.
  assert (I : incomeAmounts (l1 ++ t :: l2) = incomeAmounts (l1 ++ l2)).
  { unfold incomeAmounts. rewrite filter_app_cons, Hi, List.filter_app.
    reflexivity. }
  assert (E : sumOf (expenseMagnitudes (l1 ++ t :: l2))
              = sumOf (expenseMagnitudes (l1 ++ l2))).
  { unfold expenseMagnitudes, sumOf.
    rewrite filter_app_cons, Hi, List.filter_app. cbn [negb].
    rewrite !List.map_app, !fold_left_app. cbn [List.map fold_left app].
    rewrite (isZero_magnitude t Hz), add_zero_r; [reflexivity|].
    apply fold_add_unsignedOrNaN; [|reflexivity].
    apply (expenseMagnitudes_unsignedOrNaN l1). }
  rewrite !totals_net, !totals_income, !totals_expenses, I, E. auto.
Qed.

Lemma fold_byCategory_ignores_income (l : list Transaction) i e i' e' b :
  snd (fold_left totals_step l (i, e, b))
  = snd (fold_left totals_step
           (List.filter (fun t => negb (isIncome t)) l) (i', e', b)).
Proof.
  revert i e i' e' b. induction l as [|t l IH]; intros i e i' e' b;
    [reflexivity|].
  cbn [fold_left List.filter]. unfold totals_step at 2. fold (isIncome t).
  destruct (isIncome t) eqn:Hi; cbn [negb].
  - apply IH.
  - cbn [fold_left]. unfold totals_step at 3. fold (isIncome t). rewrite Hi.
    apply IH.
Qed.

(** Transactions counted as income leave [byCategory] untouched. *)
Lemma byCategory_ignores_income (l : list Transaction) :
  byCategory (insights_totals l)
  = byCategory (insights_totals (List.filter (fun t => negb (isIncome t)) l)).
Proof.
  rewrite !insights_totals_eq. cbn [byCategory].
  apply fold_byCategory_ignores_income.
Qed.

Lemma totals_empty :
  insights_totals []
  = {| income := zero; expenses := zero; net := zero; byCategory := ∅ |}.
Proof. reflexivity. Qed.

(** C6 (the program departs from the claim).  A bucket that holds NaN is
    falsy, so the next expense of the category restarts it from zero instead
    of being added to it.  Importing a row with the malformed amount "abc"
    and a row with amount 5, both of bank category Fees, stores the amounts
    NaN and -5; [expenses] is then NaN, as the sum of the two magnitudes is,
    but the bucket of Fees holds 5. *)
Theorem nan_bucket_restarts :
  List.map tx_amount importedFees = [NaN; of_Z (-5)]
  /\ List.map tx_category importedFees = ["Fees"; "Fees"]
  /\ expenses (insights_totals importedFees) = NaN
  /\ sumOf (categoryMagnitudes "Fees" importedFees) = NaN
  /\ byCategory (insights_totals importedFees) !! "Fees"
     = Some (Num (of_Z 5)).
Proof. repeat split; vm_compute; reflexivity. Qed.

(** *** The keys of [byCategory] and the buckets under inherited keys *)

Lemma setProperty_dom (o : gmap string Primitive) k p :
  dom (setProperty o k p) = dom o ∪ ({[k]} ∖ {["__proto__"]}).
Proof.
  unfold setProperty. destruct (String.eqb_spec k "__proto__") as [->|N].
  - apply set_eq. intros x. rewrite elem_of_union, elem_of_difference.
    rewrite !elem_of_singleton. tauto.
  - rewrite dom_insert_L. apply set_eq. intros x.
    rewrite !elem_of_union, elem_of_difference, !elem_of_singleton.
    split; [intros [->|H]; auto | intros [H|[-> _]]; auto].
Qed.

Lemma expenseCategories_cons t l :
  expenseCategories (t :: l)
  = if isIncome t then expenseCategories l
    else {[categoryOf t]} ∪ expenseCategories l.
Proof.
  unfold expenseCategories. cbn [List.filter].
  destruct (isIncome t); reflexivity.
Qed.

Lemma fold_byCategory_dom (l : list Transaction) i e
    (b : gmap string Primitive) :
  dom (snd (fold_left totals_step l (i, e, b)))
  = dom b ∪ (expenseCategories l ∖ {["__proto__"]}).
Proof.
  revert i e b. induction l as [|t l IH]; intros i e b.
  - cbn. apply set_eq. intros x.
    rewrite elem_of_union, elem_of_difference. unfold expenseCategories.
    cbn. rewrite elem_of_empty. tauto.
  - cbn [fold_left]. rewrite expenseCategories_cons. unfold totals_step at 2.
    fold (isIncome t) (categoryOf t).
    destruct (isIncome t); rewrite IH; [reflexivity|].
    rewrite setProperty_dom. apply set_eq. intros x.
    rewrite !elem_of_union, !elem_of_difference, elem_of_union. tauto.
Qed.

(** The keys of [byCategory] are the categories of the transactions that are
    not income, except [__proto__], which never becomes a key. *)
Lemma byCategory_dom (l : list Transaction) :
  dom (byCategory (insights_totals l))
  = expenseCategories l ∖ {["__proto__"]}.
Proof.
  rewrite insights_totals_eq. cbn [byCategory].
  rewrite fold_byCategory_dom, dom_empty_L. apply (left_id_L ∅ (∪)).
Qed.

Lemma plainExpenses_no_inherited (l : list Transaction) (c : string) :
  plainExpenses l = true -> inheritedName c = true ->
  c ∉ expenseCategories l.
Proof.
  unfold plainExpenses, expenseCategories. intros H Hc Hin.
  apply elem_of_list_to_set, list_elem_of_In, List.in_map_iff in Hin
    as (t & <- & Ht).
  apply List.filter_In in Ht as [Ht Hi].
  rewrite forallb_forall in H. specialize (H t Ht).
  rewrite Hc in H. destruct (isIncome t); discriminate.
Qed.

Lemma plainExpenses_Permutation (l l' : list Transaction) :
  Permutation l l' -> plainExpenses l = true -> plainExpenses l' = true.
Proof.
  unfold plainExpenses. rewrite !forallb_forall. intros P H t Ht.
  apply H. apply (Permutation_in t (Permutation_sym P) Ht).
Qed.

Lemma byCategory_plainExpenses (l : list Transaction) (c : string) :
  plainExpenses l = true -> inheritedName c = true ->
  byCategory (insights_totals l) !! c = None.
Proof.
  intros H Hc. apply not_elem_of_dom. rewrite byCategory_dom.
  intros Hin. apply elem_of_difference in Hin as [Hin _].
  exact (plainExpenses_no_inherited l c H Hc Hin).
Qed.

Lemma truthy_append (s t : string) :
  truthy_string s = true -> truthy_string (s +:+ t) = true.
Proof. destruct s; [discriminate | reflexivity]. Qed.

(** Under a key of [Object.prototype] other than [__proto__],
    [(byCategory[cat] || 0) + spend] is the text of the bucket, or of the
    inherited function, followed by the numeral of [spend]. *)
Lemma plus_inherited (b : gmap string Primitive) c spend :
  inheritedName c = true -> String.eqb c "__proto__" = false ->
  textBucket (b !! c) = true ->
  plus (bucket_or_zero b c) spend
  = Str (textOf c (b !! c) +:+ NumberToString spend)
  /\ truthy_string (textOf c (b !! c)) = true.
Proof.
  intros Hc Hp Hb. unfold bucket_or_zero, getProperty, inherited, textOf.
  rewrite Hc, Hp. cbn [negb].
  destruct (b !! c) as [[x|s]|]; cbn [textBucket] in Hb; [discriminate| |].
  - cbn [ToBoolean]. rewrite Hb. auto.
  - unfold inheritedText.
    destruct (String.eqb c "constructor"); cbn [ToBoolean plus ToPrimitive];
      auto.
Qed.

Lemma totals_fold_inherited (l : list Transaction) i e
    (b : gmap string Primitive) c :
  inheritedName c = true -> String.eqb c "__proto__" = false ->
  textBucket (b !! c) = true ->
  snd (fold_left totals_step l (i, e, b)) !! c
  = match categoryMagnitudes c l with
    | [] => b !! c
    | ms => Some (Str (appendNumbers (textOf c (b !! c)) ms))
    end.
Proof.
  intros Hc Hp. revert i e b.
  induction l as [|t l IH]; intros i e b Hb; [reflexivity|].
  cbn [fold_left]. rewrite categoryMagnitudes_cons.
  unfold totals_step at 2. fold (isIncome t) (categoryOf t) (magnitude t).
  destruct (isIncome t); cbn [negb andb]; [apply IH; assumption|].
  destruct (String.eqb_spec (categoryOf t) c) as [E|Hne].
  - rewrite E in *.
    destruct (plus_inherited b c (magnitude t) Hc Hp Hb) as [Ep Tp].
    rewrite Ep.
    pose proof (setProperty_lookup b c
                  (Str (textOf c (b !! c) +:+ NumberToString (magnitude t)))
                  Hp) as L.
    rewrite IH by (rewrite L; cbn [textBucket]; apply truthy_append, Tp).
    rewrite L. cbn [textOf appendNumbers fold_left].
    destruct (categoryMagnitudes c l); reflexivity.
  - rewrite IH; rewrite setProperty_lookup_ne by exact Hne;
      [reflexivity | exact Hb].
Qed.

(** The bucket under a key of [Object.prototype] other than [__proto__] is
    the source text of the inherited function followed by the numerals of
    the magnitudes filed under the key, in collection order. *)
Lemma totals_byCategory_inherited (l : list Transaction) (c : string) :
  inheritedName c = true -> c <> "__proto__" ->
  byCategory (insights_totals l) !! c
  = match categoryMagnitudes c l with
    | [] => None
    | ms => Some (Str (appendNumbers (inheritedText c) ms))
    end.
Proof.
  intros Hc Hp. rewrite insights_totals_eq. cbn [byCategory].
  rewrite totals_fold_inherited
    by (exact Hc || (apply String.eqb_neq, Hp)
        || (rewrite lookup_empty; reflexivity)).
  rewrite lookup_empty. reflexivity.
Qed.

(** ** Exact sums of whole numbers *)

Lemma digits_bounds (p : positive) :
  (2 ^ (digits p - 1) <= Zpos p < 2 ^ digits p)%Z.
Proof.
  unfold digits. induction p as [p IH|p IH|]; cbn [digits2_pos].
  - rewrite Pos2Z.inj_succ, Z.pow_succ_r by lia.
    replace (Z.succ (Zpos (digits2_pos p)) - 1)%Z
      with (Z.succ (Zpos (digits2_pos p) - 1)) by lia.
    rewrite Z.pow_succ_r by lia. lia.
  - rewrite Pos2Z.inj_succ, Z.pow_succ_r by lia.
    replace (Z.succ (Zpos (digits2_pos p)) - 1)%Z
      with (Z.succ (Zpos (digits2_pos p) - 1)) by lia.
    rewrite Z.pow_succ_r by lia. lia.
  - cbn. lia.
Qed.

Lemma digits_pos (p : positive) : (1 <= digits p)%Z.
Proof. unfold digits. lia. Qed.

Lemma digits_unique (p : positive) (d : Z) :
  (2 ^ (d - 1) <= Zpos p < 2 ^ d)%Z -> digits p = d.
Proof.
  intros [L U]. pose proof (digits_bounds p) as [L' U'].
  pose proof (digits_pos p).
  assert (Hd : (1 <= d)%Z).
  { destruct (Z_lt_le_dec d 1) as [N|]; [|lia].
    assert (2 ^ d <= 2 ^ 0)%Z by (destruct (Z_lt_le_dec d 0);
      [rewrite Z.pow_neg_r by lia; cbn; lia | apply Z.pow_le_mono_r; lia]).
    cbn in *. lia. }
  destruct (Z.lt_trichotomy (digits p) d) as [Lt|[Eq|Gt]]; [|exact Eq|].
  - assert (2 ^ digits p <= 2 ^ (d - 1))%Z by (apply Z.pow_le_mono_r; lia). lia.
  - assert (2 ^ d <= 2 ^ (digits p - 1))%Z by (apply Z.pow_le_mono_r; lia). lia.
Qed.

Lemma digits_shift (p m : positive) (k : Z) :
  (0 <= k)%Z -> Zpos m = (Zpos p * 2 ^ k)%Z -> digits m = (digits p + k)%Z.
Proof.
  intros Hk E. apply digits_unique. rewrite E.
  pose proof (digits_bounds p) as [L U]. pose proof (digits_pos p).
  replace (digits p + k - 1)%Z with ((digits p - 1) + k)%Z by lia.
  rewrite !Z.pow_add_r by lia.
  assert (0 < 2 ^ k)%Z by (apply Z.pow_pos_nonneg; lia).
  split; [apply Z.mul_le_mono_nonneg_r; lia | apply Z.mul_lt_mono_pos_r; lia].
Qed.

Lemma iter_xO (p k : positive) :
  Zpos (Pos.iter xO p k) = (Zpos p * 2 ^ Zpos k)%Z.
Proof.
  induction k as [|k IH] using Pos.peano_ind.
  - cbn. lia.
  - rewrite Pos.iter_succ, Pos2Z.inj_succ, Z.pow_succ_r by lia.
    rewrite Pos2Z.inj_xO, IH. lia.
Qed.

Lemma shl_align_fst (mx : positive) (ex ez : Z) :
  (ez <= ex)%Z ->
  Zpos (fst (shl_align mx ex ez)) = (Zpos mx * 2 ^ (ex - ez))%Z.
Proof.
  intros H. unfold shl_align.
  destruct (ez - ex)%Z as [|d|d] eqn:E; cbn [fst].
  - replace (ex - ez)%Z with 0%Z by lia. cbn. lia.
  - lia.
  - rewrite iter_xO. replace (ex - ez)%Z with (Zpos d) by lia. reflexivity.
Qed.

Lemma iter_pos_shift {A} (f : A -> A) (n : positive) (x : A) :
  SpecFloat.iter_pos f n (f x) = f (SpecFloat.iter_pos f n x).
Proof.
  revert x. induction n as [n IH|n IH|]; intros x; cbn [SpecFloat.iter_pos].
  - rewrite !IH. reflexivity.
  - rewrite !IH. reflexivity.
  - reflexivity.
Qed.

Lemma iter_pos_succ {A} (f : A -> A) (n : positive) (x : A) :
  SpecFloat.iter_pos f (Pos.succ n) x = SpecFloat.iter_pos f n (f x).
Proof.
  revert x. induction n as [n IH|n IH|]; intros x.
  - change (Pos.succ n~1) with ((Pos.succ n)~0)%positive.
    cbn [SpecFloat.iter_pos]. rewrite !IH, !iter_pos_shift. reflexivity.
  - change (Pos.succ n~0) with (n~1)%positive.
    cbn [SpecFloat.iter_pos]. rewrite !iter_pos_shift. reflexivity.
  - reflexivity.
Qed.

(** Shifting right by [n] a mantissa whose [n] low bits are zero is exact. *)
Lemma shr_exact (n M m : positive) :
  Zpos m = (Zpos M * 2 ^ Zpos n)%Z ->
  SpecFloat.iter_pos shr_1 n
    {| shr_m := Zpos m; shr_r := false; shr_s := false |}
  = {| shr_m := Zpos M; shr_r := false; shr_s := false |}.
Proof.
  revert m. induction n as [|n IH] using Pos.peano_ind; intros m E.
  - cbn [SpecFloat.iter_pos]. destruct m as [m|m|]; cbn in *; try lia.
    f_equal. lia.
  - rewrite iter_pos_succ.
    rewrite Pos2Z.inj_succ, Z.pow_succ_r in E by lia.
    destruct m as [m|m|]; try lia.
    cbn [shr_1 orb]. apply IH. lia.
Qed.

Lemma fexp_normal (d : Z) :
  (-1021 <= d)%Z -> fexp prec64 emax64 d = (d - 53)%Z.
Proof. unfold fexp, emin, prec64, emax64. lia. Qed.

Lemma shr_fexp_exact (M m : positive) (n E : Z) :
  digits M = 53%Z -> (0 <= n)%Z -> Zpos m = (Zpos M * 2 ^ n)%Z ->
  (-1074 <= E)%Z ->
  shr_fexp prec64 emax64 (Zpos m) (E - n) loc_Exact
  = ({| shr_m := Zpos M; shr_r := false; shr_s := false |}, E).
Proof.
  intros HM Hn Em HE. unfold shr_fexp. cbn [Zdigits2 shr_record_of_loc].
  change (Zpos (digits2_pos m)) with (digits m).
  rewrite (digits_shift M m n Hn Em), HM, fexp_normal by lia.
  replace (53 + n + (E - n) - 53 - (E - n))%Z with n by lia.
  unfold shr. destruct n as [|p|p]; [| |lia].
  - assert (m = M) by (cbn in Em; lia). subst. f_equal. lia.
  - rewrite (shr_exact p M m Em). f_equal. lia.
Qed.

Lemma binary_round_aux_exact (sx : bool) (M m : positive) (n E : Z) :
  digits M = 53%Z -> (0 <= n)%Z -> Zpos m = (Zpos M * 2 ^ n)%Z ->
  (-1074 <= E <= 971)%Z ->
  binary_round_aux prec64 emax64 sx (Zpos m) (E - n) loc_Exact
  = S754_finite sx M E.
Proof.
  intros HM Hn Em HE. unfold binary_round_aux.
  rewrite (shr_fexp_exact M m n E) by (assumption || lia).
  cbn [shr_m loc_of_shr_record round_nearest_even].
  replace E with (E - 0)%Z at 1 by lia.
  rewrite (shr_fexp_exact M M 0 E) by (assumption || cbn; lia).
  cbn [shr_m]. unfold emax64, prec64.
  destruct (Z.leb_spec E (1024 - 53)); [reflexivity | lia].
Qed.

Lemma canonical_mantissa_eq (c : positive) :
  (digits c <= 53)%Z ->
  Zpos (Z.to_pos (Zpos c * 2 ^ (53 - digits c))) = (Zpos c * 2 ^ (53 - digits c))%Z
  /\ digits (Z.to_pos (Zpos c * 2 ^ (53 - digits c))) = 53%Z.
Proof.
  intros H.
  assert (P : (0 < Zpos c * 2 ^ (53 - digits c))%Z)
    by (apply Z.mul_pos_pos; [lia | apply Z.pow_pos_nonneg; lia]).
  assert (E : Zpos (Z.to_pos (Zpos c * 2 ^ (53 - digits c)))
              = (Zpos c * 2 ^ (53 - digits c))%Z) by (apply Z2Pos.id, P).
  split; [exact E|].
  rewrite (digits_shift c _ (53 - digits c)) by (lia || exact E). lia.
Qed.

(** Rounding an integer below [2 ^ 53], given with any number [k] of
    trailing zero bits, is exact. *)
Lemma binary_round_exact (sx : bool) (c m : positive) (k : Z) :
  (digits c <= 53)%Z -> (0 <= k)%Z -> Zpos m = (Zpos c * 2 ^ k)%Z ->
  binary_round prec64 emax64 sx m (- k) = canonical sx c.
Proof.
  intros Hc Hk Em. unfold binary_round, canonical.
  change (Zpos (digits2_pos m)) with (digits m).
  pose proof (digits_pos c) as Hp.
  destruct (canonical_mantissa_eq c Hc) as [EM DM].
  set (M := Z.to_pos (Zpos c * 2 ^ (53 - digits c))) in *.
  rewrite (digits_shift c m k Hk Em), fexp_normal by lia.
  replace (digits c + k + - k - 53)%Z with (digits c - 53)%Z by lia.
  unfold shl_align. destruct (digits c - 53 - - k)%Z as [|z|z] eqn:Ez.
  - replace (- k)%Z with (digits c - 53 - 0)%Z by lia.
    apply binary_round_aux_exact; [exact DM | lia | | lia].
    rewrite EM, Em. replace k with (53 - digits c)%Z by lia. cbn. lia.
  - replace (- k)%Z with (digits c - 53 - Zpos z)%Z by lia.
    apply binary_round_aux_exact; [exact DM | lia | | lia].
    rewrite EM, Em, <- Z.mul_assoc, <- Z.pow_add_r by lia.
    f_equal. f_equal. lia.
  - replace (digits c - 53)%Z with (digits c - 53 - 0)%Z at 1 by lia.
    apply binary_round_aux_exact; [exact DM | lia | | lia].
    rewrite iter_xO, EM, Em, <- Z.mul_assoc, <- Z.pow_add_r by lia.
    replace (k + Zpos z)%Z with (53 - digits c)%Z by lia. cbn. lia.
Qed.

Lemma digits_le_53 (c : positive) : (Zpos c < 2 ^ 53)%Z -> (digits c <= 53)%Z.
Proof.
  intros H. pose proof (digits_bounds c) as [L _].
  destruct (Z_lt_le_dec 53 (digits c)) as [G|]; [|lia].
  assert (2 ^ 53 <= 2 ^ (digits c - 1))%Z by (apply Z.pow_le_mono_r; lia). lia.
Qed.

Lemma of_Z_pos (c : positive) :
  (Zpos c < 2 ^ 53)%Z -> of_Z (Zpos c) = canonical false c.
Proof.
  intros H. unfold of_Z. cbn [binary_normalize].
  change 0%Z with (- 0)%Z.
  apply binary_round_exact; [apply digits_le_53, H | lia | cbn; lia].
Qed.

Lemma of_Z_neg (c : positive) :
  (Zpos c < 2 ^ 53)%Z -> of_Z (Zneg c) = canonical true c.
Proof.
  intros H. unfold of_Z. cbn [binary_normalize].
  change 0%Z with (- 0)%Z.
  apply binary_round_exact; [apply digits_le_53, H | lia | cbn; lia].
Qed.

Lemma add_canonical (p q : positive) :
  (Zpos p + Zpos q < 2 ^ 53)%Z ->
  add (canonical false p) (canonical false q) = canonical false (p + q).
Proof.
  intros H.
  assert (Hp : (digits p <= 53)%Z) by (apply digits_le_53; lia).
  assert (Hq : (digits q <= 53)%Z) by (apply digits_le_53; lia).
  destruct (canonical_mantissa_eq p Hp) as [Ep _].
  destruct (canonical_mantissa_eq q Hq) as [Eq _].
  unfold add, SFadd, canonical. cbn [cond_Zopp].
  set (Mp := Z.to_pos (Zpos p * 2 ^ (53 - digits p))) in *.
  set (Mq := Z.to_pos (Zpos q * 2 ^ (53 - digits q))) in *.
  set (ez := Z.min (digits p - 53) (digits q - 53)).
  cbn [Z.add binary_normalize].
  replace ez with (- - ez)%Z at 3 by lia.
  apply binary_round_exact; [apply digits_le_53; lia | lia |].
  rewrite !Pos2Z.inj_add, !shl_align_fst by lia.
  rewrite Ep, Eq, <- !Z.mul_assoc, <- !Z.pow_add_r by lia.
  replace (53 - digits p + (digits p - 53 - ez))%Z with (- ez)%Z by lia.
  replace (53 - digits q + (digits q - 53 - ez))%Z with (- ez)%Z by lia.
  lia.
Qed.

(** Adding two whole numbers whose sum stays below [2 ^ 53] is exact. *)
Lemma add_of_Z (a b : Z) :
  (0 <= a)%Z -> (0 <= b)%Z -> (a + b < 2 ^ 53)%Z ->
  add (of_Z a) (of_Z b) = of_Z (a + b).
Proof.
  intros Ha Hb H. destruct a as [|p|p], b as [|q|q]; try lia.
  - reflexivity.
  - rewrite Z.add_0_l, of_Z_pos by lia. reflexivity.
  - rewrite Z.add_0_r, of_Z_pos by lia. reflexivity.
  - rewrite <- Pos2Z.inj_add, !of_Z_pos by lia. apply add_canonical, H.
Qed.

Lemma abs_of_Z (k : Z) :
  (Z.abs k < 2 ^ 53)%Z -> Math_abs (of_Z k) = of_Z (Z.abs k).
Proof.
  intros H. destruct k as [|p|p].
  - reflexivity.
  - change (Z.abs (Zpos p)) with (Zpos p) in *.
    rewrite of_Z_pos by exact H. reflexivity.
  - change (Z.abs (Zneg p)) with (Zpos p) in *.
    rewrite of_Z_pos, of_Z_neg by exact H. reflexivity.
Qed.

Lemma gt_of_Z (k : Z) :
  (Z.abs k < 2 ^ 53)%Z -> gt (of_Z k) zero = (0 <? k)%Z.
Proof.
  intros H. destruct k as [|p|p].
  - reflexivity.
  - change (Z.abs (Zpos p)) with (Zpos p) in H.
    rewrite of_Z_pos by exact H. reflexivity.
  - change (Z.abs (Zneg p)) with (Zpos p) in H.
    rewrite of_Z_neg by exact H. reflexivity.
Qed.

Lemma sumZ_nonneg (ks : list Z) :
  Forall (fun k => 0 <= k)%Z ks -> (0 <= sumZ ks)%Z.
Proof. induction 1; cbn; unfold sumZ in *; lia. Qed.

Lemma fold_add_of_Z (ks : list Z) (a : Z) :
  (0 <= a)%Z -> Forall (fun k => 0 <= k)%Z ks ->
  (a + sumZ ks < 2 ^ 53)%Z ->
  fold_left add (List.map of_Z ks) (of_Z a) = of_Z (a + sumZ ks).
Proof.
  revert a. induction ks as [|k ks IH]; intros a Ha Hks H.
  - cbn. rewrite Z.add_0_r. reflexivity.
  - inversion Hks as [|? ? Hk Hks']; subst.
    pose proof (sumZ_nonneg ks Hks') as S.
    change (sumZ (k :: ks)) with (k + sumZ ks)%Z in *.
    cbn [List.map fold_left].
    rewrite add_of_Z by lia. rewrite IH by (assumption || lia).
    f_equal. lia.
Qed.

Lemma sumOf_of_Z (ks : list Z) :
  Forall (fun k => 0 <= k)%Z ks -> (sumZ ks < 2 ^ 53)%Z ->
  sumOf (List.map of_Z ks) = of_Z (sumZ ks).
Proof.
  intros Hks H. unfold sumOf. change zero with (of_Z 0).
  rewrite fold_add_of_Z by (assumption || lia). reflexivity.
Qed.

Lemma toInteger_canonical (s : bool) (p : positive) :
  (digits p <= 53)%Z -> toInteger (canonical s p) = cond_Zopp s (Zpos p).
Proof.
  intros H. destruct (canonical_mantissa_eq p H) as [E _].
  unfold canonical, toInteger. f_equal.
  destruct (digits p - 53)%Z as [|k|k] eqn:D; [| lia |].
  - rewrite E. replace (53 - digits p)%Z with 0%Z by lia. cbn. lia.
  - rewrite E. replace (53 - digits p)%Z with (Zpos k) by lia.
    apply Z.div_mul. apply Z.pow_nonzero; lia.
Qed.

(** The integer part of the binary64 value of an integer below [2 ^ 53] in
    magnitude is that integer. *)
Lemma toInteger_of_Z (k : Z) :
  (Z.abs k < 2 ^ 53)%Z -> toInteger (of_Z k) = k.
Proof.
  intros H. destruct k as [|p|p].
  - reflexivity.
  - change (Z.abs (Zpos p)) with (Zpos p) in H.
    rewrite of_Z_pos, toInteger_canonical by (try apply digits_le_53; exact H).
    reflexivity.
  - change (Z.abs (Zneg p)) with (Zpos p) in H.
    rewrite of_Z_neg, toInteger_canonical by (try apply digits_le_53; exact H).
    reflexivity.
Qed.

(** A transaction whose amount is the value of an integer below [2 ^ 53] in
    magnitude has a whole amount. *)
Lemma wholeAmount_of_Z (t : Transaction) (k : Z) :
  (Z.abs k < 2 ^ 53)%Z -> tx_amount t = of_Z k ->
  wholeAmount t /\ wholePart t = k.
Proof.
  intros H E. unfold wholeAmount, wholePart, magnitude.
  rewrite E, toInteger_of_Z by exact H. split; [apply abs_of_Z, H | reflexivity].
Qed.

(** *** Whole-number collections *)

Lemma Permutation_filter {A} (f : A -> bool) (l l' : list A) :
  Permutation l l' -> Permutation (List.filter f l) (List.filter f l').
Proof.
  induction 1 as [|x l l' _ IH|x y l|l l' l'' _ IH1 _ IH2]; cbn [List.filter].
  - constructor.
  - destruct (f x); [constructor|]; exact IH.
  - destruct (f x), (f y); try reflexivity. constructor.
  - etransitivity; eassumption.
Qed.

Lemma sumZ_Permutation (ks ks' : list Z) :
  Permutation ks ks' -> sumZ ks = sumZ ks'.
Proof.
  unfold sumZ.
  induction 1 as [|x l l' _ IH|x y l|l l' l'' _ IH1 _ IH2]; cbn [fold_right];
    lia.
Qed.

Lemma sumZ_filter_le {A} (g : A -> Z) (f : A -> bool) (l : list A) :
  (forall x, 0 <= g x)%Z ->
  (0 <= sumZ (List.map g (List.filter f l)) <= sumZ (List.map g l))%Z.
Proof.
  intros Hg. unfold sumZ.
  induction l as [|x l IH]; cbn [List.filter List.map fold_right]; [lia|].
  specialize (Hg x).
  destruct (f x); cbn [List.map fold_right]; lia.
Qed.

Lemma totalMagnitude_bound (l : list Transaction) (t : Transaction) :
  In t l -> (Z.abs (wholePart t) <= totalMagnitude l)%Z.
Proof.
  unfold totalMagnitude, sumZ.
  induction l as [|u l IH]; cbn [In List.map fold_right]; [tauto|].
  assert (0 <= fold_right Z.add 0 (List.map (fun t => Z.abs (wholePart t)) l))%Z.
  { clear. induction l; cbn [List.map fold_right]; lia. }
  intros [->|H']; [lia | specialize (IH H'); lia].
Qed.

Lemma income_magnitude (t : Transaction) :
  isIncome t = true -> tx_amount t = magnitude t.
Proof. unfold isIncome, magnitude. number_cases (tx_amount t). Qed.

Lemma incomeAmounts_magnitudes (l : list Transaction) :
  incomeAmounts l = List.map magnitude (List.filter isIncome l).
Proof.
  unfold incomeAmounts. apply List.map_ext_in. intros t Ht.
  apply List.filter_In in Ht as [_ Ht]. apply income_magnitude, Ht.
Qed.

Section WholeNumbers.

Variable l : list Transaction.
Hypothesis Hwhole : wholeAmounts l.
Hypothesis Hbound : (totalMagnitude l < 2 ^ 53)%Z.

Lemma whole_magnitude (t : Transaction) :
  In t l -> magnitude t = of_Z (Z.abs (wholePart t)).
Proof.
  intros Ht. unfold wholeAmounts in Hwhole.
  rewrite List.Forall_forall in Hwhole. exact (Hwhole t Ht).
Qed.

Lemma whole_noNaN : noNaN l.
Proof.
  unfold noNaN. apply List.Forall_forall. intros t Ht.
  pose proof (totalMagnitude_bound l t Ht) as B.
  pose proof (whole_magnitude t Ht) as M. unfold magnitude in M.
  destruct (tx_amount t); try reflexivity. exfalso.
  destruct (Z.abs (wholePart t)) as [|p|p] eqn:E.
  - discriminate M.
  - rewrite of_Z_pos in M by lia. discriminate M.
  - lia.
Qed.

(** The floating-point sum of the magnitudes of any selection of the
    collection is the exact integer sum. *)
Lemma whole_sum (f : Transaction -> bool) :
  sumOf (List.map magnitude (List.filter f l))
  = of_Z (sumZ (List.map (fun t => Z.abs (wholePart t)) (List.filter f l))).
Proof.
  pose proof (sumZ_filter_le (fun t => Z.abs (wholePart t)) f l
                (fun t => Z.abs_nonneg _)) as B.
  fold (totalMagnitude l) in B.
  rewrite <- sumOf_of_Z.
  - f_equal. rewrite List.map_map. apply List.map_ext_in. intros t Ht.
    apply List.filter_In in Ht as [Ht _]. apply whole_magnitude, Ht.
  - apply List.Forall_forall. intros k Hk.
    apply List.in_map_iff in Hk as (t & <- & _). apply Z.abs_nonneg.
  - lia.
Qed.

End WholeNumbers.

Lemma totals_ext (a b : Totals) :
  income a = income b -> expenses a = expenses b -> net a = net b ->
  byCategory a = byCategory b -> a = b.
Proof. destruct a, b. cbn. intros -> -> -> ->. reflexivity. Qed.

Lemma wholeAmounts_Permutation (l l' : list Transaction) :
  Permutation l l' -> wholeAmounts l -> wholeAmounts l'.
Proof. unfold wholeAmounts. intros P H. rewrite <- P. exact H. Qed.

Lemma totalMagnitude_Permutation (l l' : list Transaction) :
  Permutation l l' -> totalMagnitude l = totalMagnitude l'.
Proof.
  intros P. unfold totalMagnitude. apply sumZ_Permutation, Permutation_map, P.
Qed.

Lemma whole_sum_Permutation (l l' : list Transaction) (f : Transaction -> bool) :
  Permutation l l' -> wholeAmounts l -> (totalMagnitude l < 2 ^ 53)%Z ->
  sumOf (List.map magnitude (List.filter f l))
  = sumOf (List.map magnitude (List.filter f l')).
Proof.
  intros P W B.
  rewrite (whole_sum l W B f).
  rewrite (whole_sum l' (wholeAmounts_Permutation l l' P W)) 
    by (rewrite <- (totalMagnitude_Permutation l l' P); exact B).
  f_equal. apply sumZ_Permutation, Permutation_map, Permutation_filter, P.
Qed.

(** C7 (as stated, refuted).  Summing the expenses 0.1, 0.2, 0.3 in this
    order gives 0.6000000000000001; in the reverse order it gives 0.6. *)
Lemma aggregation_depends_on_order :
  Permutation threeExpenses (rev threeExpenses)
  /\ expenses (insights_totals threeExpenses)
     = StringToNumber "0.6000000000000001"
  /\ expenses (insights_totals (rev threeExpenses)) = StringToNumber "0.6"
  /\ insights_totals threeExpenses <> insights_totals (rev threeExpenses).
Proof.
  split; [apply Permutation_rev|].
  split; [vm_compute; reflexivity|]. split; [vm_compute; reflexivity|].
  intros E. apply (f_equal expenses) in E. vm_compute in E. discriminate E.
Qed.

(** Numerals as the program prints them: the shortest digits that read back,
    positional notation from [1e-6] up to, and not including, [1e21], and
    exponent notation outside. *)
Lemma NumberToString_examples :
  NumberToString (of_Z 5) = "5"
  /\ NumberToString (StringToNumber "54.320") = "54.32"
  /\ NumberToString (add (StringToNumber "0.1") (StringToNumber "0.2"))
     = "0.30000000000000004"
  /\ NumberToString (StringToNumber "0.000001") = "0.000001"
  /\ NumberToString (StringToNumber "0.0000001") = "1e-7"
  /\ NumberToString (of_Z (10 ^ 20)) = "100000000000000000000"
  /\ NumberToString (of_Z (10 ^ 21)) = "1e+21"
  /\ NumberToString (of_Z (2 ^ 53 + 1)) = "9007199254740992"
  /\ NumberToString (StringToNumber "5e-324") = "5e-324"
  /\ NumberToString (StringToNumber "1.7976931348623157e308")
     = "1.7976931348623157e+308"
  /\ NumberToString (StringToNumber "-1234.5") = "-1234.5"
  /\ NumberToString (S754_zero true) = "0"
  /\ NumberToString NaN = "NaN"
  /\ NumberToString (S754_infinity false) = "Infinity".
Proof. repeat split; vm_compute; reflexivity. Qed.

(** C7 (as stated, a second source of order dependence).  Two expenses of 5
    and 7 filed under the category "constructor" read the inherited function
    [Object] on the first pass, so the bucket is a text that ends in the two
    numerals in collection order; an expense filed under "__proto__" is
    added to [expenses] and leaves no bucket. *)
Lemma inherited_bucket_depends_on_order :
  byCategory (insights_totals constructorExpenses) !! "constructor"
  = Some (Str "function Object() { [native code] }57")
  /\ byCategory (insights_totals (rev constructorExpenses)) !! "constructor"
     = Some (Str "function Object() { [native code] }75")
  /\ expenses (insights_totals protoExpense) = of_Z 5
  /\ byCategory (insights_totals protoExpense) = ∅.
Proof. repeat split; vm_compute; reflexivity. Qed.

(** C7 (amended).  On a collection whose amounts are whole numbers (zero of
    either sign included) with magnitudes that sum to less than [2 ^ 53], so
    that every floating-point sum is exact, and in which no transaction that
    is not income is filed under the name of a property of
    [Object.prototype], aggregation is order-independent: a permutation of
    the collection has the same income, expenses, net and byCategory. *)
Theorem aggregation_order_independent (l l' : list Transaction) :
  Permutation l l' ->
  wholeAmounts l ->
  (totalMagnitude l < 2 ^ 53)%Z ->
  plainExpenses l = true ->
  insights_totals l' = insights_totals l.
Proof.
  intros P W B K.
  assert (I : income (insights_totals l') = income (insights_totals l)).
  { rewrite !totals_income, !incomeAmounts_magnitudes.
    symmetry. apply whole_sum_Permutation; assumption. }
  assert (E : expenses (insights_totals l') = expenses (insights_totals l)).
  { rewrite !totals_expenses. unfold expenseMagnitudes.
    symmetry. apply whole_sum_Permutation; assumption. }
  apply totals_ext; [exact I | exact E | rewrite !totals_net, I, E; reflexivity |].
  apply map_eq. intros c.
  destruct (inheritedName c) eqn:Hc.
  { rewrite !byCategory_plainExpenses;
      eauto using plainExpenses_Permutation. }
  rewrite !totals_byCategory
    by (exact Hc
        || (apply whole_noNaN;
            [eauto using wholeAmounts_Permutation
            |rewrite <- ?(totalMagnitude_Permutation l l' P); exact B])).
  unfold byCategory_spec.
  pose proof (whole_sum_Permutation l l'
                (fun t => negb (isIncome t) && String.eqb (categoryOf t) c)
                P W B) as S.
  assert (Q : Permutation (categoryMagnitudes c l) (categoryMagnitudes c l'))
    by (apply Permutation_map, Permutation_filter, P).
  fold (categoryMagnitudes c l) (categoryMagnitudes c l') in S.
  destruct (categoryMagnitudes c l) as [|m ms], (categoryMagnitudes c l') as [|m' ms'].
  - reflexivity.
  - apply Permutation_nil in Q. discriminate Q.
  - symmetry in Q. apply Permutation_nil in Q. discriminate Q.
  - rewrite S. reflexivity.
Qed.

(** The theorem at the scenario collection and its reversal. *)
Lemma aggregation_order_independent_witness :
  Permutation scenarioWithZero (rev scenarioWithZero)
  /\ wholeAmounts scenarioWithZero
  /\ (totalMagnitude scenarioWithZero < 2 ^ 53)%Z
  /\ plainExpenses scenarioWithZero = true
  /\ insights_totals (rev scenarioWithZero) = insights_totals scenarioWithZero.
Proof.
  assert (P : Permutation scenarioWithZero (rev scenarioWithZero))
    by apply Permutation_rev.
  assert (W : wholeAmounts scenarioWithZero) by (repeat constructor).
  assert (B : (totalMagnitude scenarioWithZero < 2 ^ 53)%Z) by reflexivity.
  assert (K : plainExpenses scenarioWithZero = true) by reflexivity.
  split; [exact P|]. split; [exact W|]. split; [exact B|]. split; [exact K|].
  exact (aggregation_order_independent scenarioWithZero
           (rev scenarioWithZero) P W B K).
Defined.

(** The specification's aggregation scenario. *)
Lemma totals_scenario :
  income (insights_totals scenario) = of_Z 1000
  /\ expenses (insights_totals scenario) = of_Z 250
  /\ net (insights_totals scenario) = of_Z 750
  /\ byCategory (insights_totals scenario)
     = {[ "Groceries" := Num (of_Z 200); "Gas" := Num (of_Z 50) ]}.
Proof. repeat split; vm_compute; reflexivity. Qed.

(** *** What a permutation preserves on every collection *)

(** On every collection a permutation keeps the amounts that are added into
    each total, up to their order, and the categories of [byCategory]; only
    the order of the floating-point additions changes. *)
Lemma permutation_keeps_addends (l l' : list Transaction) :
  Permutation l l' ->
  Permutation (incomeAmounts l) (incomeAmounts l')
  /\ Permutation (expenseMagnitudes l) (expenseMagnitudes l')
  /\ (forall c, Permutation (categoryMagnitudes c l) (categoryMagnitudes c l'))
  /\ dom (byCategory (insights_totals l)) = dom (byCategory (insights_totals l')).
Proof.
  intros P. repeat split.
  - apply Permutation_map, Permutation_filter, P.
  - apply Permutation_map, Permutation_filter, P.
  - intros c. apply Permutation_map, Permutation_filter, P.
  - rewrite !byCategory_dom. unfold expenseCategories. f_equal.
    apply list_to_set_perm_L, Permutation_map, Permutation_filter, P.
Qed.

(** ** Scenarios of the specification *)

(** Overlapping keywords: the earlier rule wins, a positive amount wins over
    every keyword, and a blank name wins over a positive amount. *)
Lemma categorize_examples :
  categorize "Whole Foods Market" (StringToNumber "-54.32") = "Groceries"
  /\ categorize "SHELL GAS - RENT" (of_Z (-40)) = "Housing"
  /\ categorize "Uber Eats Pizza" (of_Z (-25)) = "Transport"
  /\ categorize "Starbucks" (of_Z 5) = "Income"
  /\ categorize "   " (of_Z 5) = "Uncategorized"
  /\ categorize "Bookshop" (of_Z (-12)) = "Uncategorized"
  /\ categorize "Netflix" NaN = "Subscriptions".
Proof. repeat split; vm_compute; reflexivity. Qed.

Lemma import_scenarios :
  row_skipped wholeFoodsRow = false
  /\ tx_amount (import_tx wholeFoodsRow "id") = StringToNumber "-54.32"
  /\ tx_category (import_tx wholeFoodsRow "id") = "Groceries"
  /\ row_skipped paymentRow = false
  /\ tx_amount (import_tx paymentRow "id") = StringToNumber "200.00"
  /\ tx_category (import_tx paymentRow "id") = "Income".
Proof. repeat split; vm_compute; reflexivity. Qed.

(** What holds of the aggregate on every collection.  [income] and
    [expenses] are the sums, from left to right, of the amounts above zero
    and of the magnitudes of the others; income leaves [byCategory]
    untouched; the keys of [byCategory] are the categories of the
    transactions that are not income, except [__proto__], which never
    becomes a key; on a collection without NaN amounts the bucket under a
    key that [Object.prototype] does not have is the sum of the magnitudes
    filed under it; and the bucket under a key that [Object.prototype] has
    is the source text of the inherited function followed by the numerals of
    those magnitudes. *)
Lemma aggregation_as_specified (l : list Transaction) :
  income (insights_totals l) = sumOf (incomeAmounts l)
  /\ expenses (insights_totals l) = sumOf (expenseMagnitudes l)
  /\ net (insights_totals l)
     = sub (income (insights_totals l)) (expenses (insights_totals l))
  /\ byCategory (insights_totals l)
     = byCategory (insights_totals (List.filter (fun t => negb (isIncome t)) l))
  /\ dom (byCategory (insights_totals l))
     = expenseCategories l ∖ {["__proto__"]}
  /\ (noNaN l ->
      forall c, inheritedName c = false ->
        byCategory (insights_totals l) !! c = Num <$> byCategory_spec l c)
  /\ (forall c, inheritedName c = true -> c <> "__proto__" ->
        byCategory (insights_totals l) !! c
        = match categoryMagnitudes c l with
          | [] => None
          | ms => Some (Str (appendNumbers (inheritedText c) ms))
          end).
Proof.
  split; [apply totals_income|]. split; [apply totals_expenses|].
  split; [apply totals_net|]. split; [apply byCategory_ignores_income|].
  split; [apply byCategory_dom|].
  split; [intros H c Hc; apply totals_byCategory; assumption|].
  intros c Hc Hp. apply totals_byCategory_inherited; assumption.
Qed.

(** * Further properties of the server *)

(** ** Invariants of the store *)

Section StoreInvariants.

Variable randomUUID : nat -> string.
Variable parse : string -> string + list Row.

(** What a request does to the array [transactions]: a reset empties it,
    every other request appends to it. *)
Lemma handle_appends (st : Store) (req : Request) :
  if isReset req
  then transactions (handle randomUUID parse st req) = []
       /\ uuids_drawn (handle randomUUID parse st req) = uuids_drawn st
  else exists new,
      transactions (handle randomUUID parse st req) = transactions st ++ new
      /\ uuids_drawn (handle randomUUID parse st req)
         = uuids_drawn st + length new
      /\ List.map tx_id new
         = List.map randomUUID (seq (uuids_drawn st) (length new))
      /\ Forall (fun t => (exists body uuid, t = manual_tx body uuid)
                          \/ (exists r uuid, t = import_tx r uuid)) new.
Proof.
  destruct req as [body|[csvText|]|]; cbn [isReset handle].
  - exists [manual_tx body (randomUUID (uuids_drawn st))]. cbn.
    repeat split; [f_equal; lia|]. constructor; [|constructor]. left. eauto.
  - unfold post_import_csv. destruct (parse csvText) as [err|rows].
    + exists []. cbn. rewrite app_nil_r. repeat split; [lia | constructor].
    + rewrite import_rows_eq. cbn [snd transactions uuids_drawn].
      exists (importedOf randomUUID (uuids_drawn st) rows).
      repeat split.
      * generalize (uuids_drawn st). induction rows as [|r rows IH]; intros n;
          cbn [importedOf]; [reflexivity|].
        destruct (row_skipped r); [apply IH|].
        cbn [List.map length seq]. f_equal. apply IH.
      * generalize (uuids_drawn st). induction rows as [|r rows IH]; intros n;
          cbn [importedOf]; [constructor|].
        destruct (row_skipped r); [apply IH|].
        constructor; [right; eauto | apply IH].
  - exists []. cbn. rewrite app_nil_r. repeat split; [lia | constructor].
  - split; reflexivity.
Qed.

(** A property of every transaction the two builders can produce holds of
    every transaction in the store, after any sequence of requests. *)
Lemma run_Forall (P : Transaction -> Prop) (reqs : list Request) :
  (forall body uuid, P (manual_tx body uuid)) ->
  (forall r uuid, P (import_tx r uuid)) ->
  Forall P (transactions (run randomUUID parse reqs)).
Proof.
  intros Hm Hi. unfold run.
  assert (G : forall st, Forall P (transactions st) ->
            Forall P (transactions (fold_left (handle randomUUID parse) reqs st))).
  { induction reqs as [|req reqs IH]; intros st H; [exact H|].
    cbn [fold_left]. apply IH.
    pose proof (handle_appends st req) as A. destruct (isReset req).
    - destruct A as [-> _]. constructor.
    - destruct A as (new & -> & _ & _ & F). apply Forall_app. split; [exact H|].
      eapply Forall_impl; [exact F|]. cbn.
      intros t [(body & uuid & ->)|(r & uuid & ->)]; auto. }
  apply G. constructor.
Qed.

End StoreInvariants.

(** ** More on strings *)

Lemma trimStart_idempotent s : trimStart (trimStart s) = trimStart s.
Proof.
  induction s as [|c s IH]; [reflexivity|].
  cbn [trimStart]. destruct (isWhiteSpace c) eqn:W; [exact IH|].
  cbn [trimStart]. rewrite W. reflexivity.
Qed.

Lemma trimEnd_idempotent s : trimEnd (trimEnd s) = trimEnd s.
Proof.
  induction s as [|c s IH]; [reflexivity|].
  cbn [trimEnd]. destruct (trimEnd s) as [|d r] eqn:E.
  - destruct (isWhiteSpace c) eqn:W; [reflexivity|].
    cbn [trimEnd]. rewrite W. reflexivity.
  - cbn [trimEnd] in *. rewrite IH. reflexivity.
Qed.

Lemma trim_idempotent s : trim (trim s) = trim s.
Proof.
  unfold trim.
  rewrite <- (trimStart_trimEnd (trimEnd s)), trimEnd_idempotent,
    trimStart_idempotent.
  reflexivity.
Qed.

Lemma slice0_length (n : nat) (s : string) :
  String.length (slice0 n s) = Nat.min n (String.length s).
Proof.
  unfold slice0. revert n. induction s as [|c s IH]; intros [|n]; cbn;
    try reflexivity.
  rewrite IH. reflexivity.
Qed.

Lemma slice0_prefix (n : nat) (s : string) :
  String.prefix (slice0 n s) s = true.
Proof.
  unfold slice0. revert n. induction s as [|c s IH]; intros [|n];
    try reflexivity.
  change (substring 0 (S n) (String c s)) with (String c (substring 0 n s)).
  rewrite prefix_cons, Ascii.eqb_refl. apply IH.
Qed.

(** ** The range of the heuristic *)

Lemma categorize_label (name : string) (amount : number) :
  In (categorize name amount) categoryLabels.
Proof.
  unfold categorize, categoryLabels.
  repeat match goal with
         | |- context [if ?b then _ else _] => destruct b
         end; cbn; tauto.
Qed.

Lemma firstMatch_not_Income (n : string) :
  firstMatch n categoryRules <> "Income".
Proof.
  cbn [firstMatch categoryRules].
  repeat match goal with
         | |- context [if ?b then _ else _] => destruct b
         end; discriminate.
Qed.

(** The heuristic returns one of its eleven labels, and it returns
    ["Income"] exactly for a name that is not blank with an amount above
    zero; so a manual entry is labelled ["Income"] exactly when its name is
    not blank and the aggregation counts it as income. *)
Theorem categorize_income_iff :
  (forall name amount,
      In (categorize name amount) categoryLabels
      /\ (categorize name amount = "Income"
          <-> allWhiteSpace name = false /\ gt amount zero = true))
  /\ (forall body uuid,
         tx_category (manual_tx body uuid) = "Income"
         <-> allWhiteSpace (nullish (body_name body) "") = false
             /\ isIncome (manual_tx body uuid) = true).
Proof.
  assert (C : forall name amount,
             categorize name amount = "Income"
             <-> allWhiteSpace name = false /\ gt amount zero = true).
  { intros name amount. rewrite categorize_eq_spec. unfold categorize_spec.
    pose proof (firstMatch_not_Income (toLowerCase name)).
    destruct (allWhiteSpace name), (gt amount zero);
      intuition (discriminate || congruence). }
  split.
  - intros name amount. split; [apply categorize_label | apply C].
  - intros body uuid. unfold manual_tx, isIncome. cbn [tx_category tx_amount].
    rewrite trim_truthy.
    destruct (allWhiteSpace (nullish (body_name body) "")) eqn:W; cbn [negb].
    + intuition discriminate.
    + rewrite C.
      assert (T : allWhiteSpace (trim (nullish (body_name body) "")) = false).
      { pose proof (trim_truthy (trim (nullish (body_name body) ""))) as T.
        rewrite trim_idempotent, trim_truthy, W in T. cbn in T.
        destruct (allWhiteSpace (trim _)); [discriminate | reflexivity]. }
      rewrite T. tauto.
Qed.

(** ** What every stored transaction satisfies *)

Lemma categorize_trimmed (name : string) (amount : number) :
  trim (categorize name amount) = categorize name amount.
Proof.
  assert (H : forallb (fun c => String.eqb (trim c) c) categoryLabels = true)
    by (vm_compute; reflexivity).
  rewrite forallb_forall in H. apply String.eqb_eq, H, categorize_label.
Qed.

Lemma builder_name (cleanName : string) :
  let name := if truthy_string (trim cleanName) then trim cleanName
              else "(No description)" in
  name <> "" /\ trim name = name.
Proof.
  cbn zeta. destruct (trim cleanName) eqn:E; cbn [truthy_string].
  - split; [discriminate | reflexivity].
  - rewrite <- E. split; [rewrite E; discriminate | apply trim_idempotent].
Qed.

Section StoredTransactions.

Variable randomUUID : nat -> string.
Variable parse : string -> string + list Row.

(** Every stored name is non-empty and has no white space at either end:
    it is the trimmed name that was supplied, or the placeholder. *)
Theorem stored_names_trimmed (reqs : list Request) :
  Forall (fun t => tx_name t <> "" /\ trim (tx_name t) = tx_name t)
         (transactions (run randomUUID parse reqs)).
Proof.
  apply run_Forall.
  - intros body uuid. apply (builder_name (nullish (body_name body) "")).
  - intros r uuid. apply (builder_name (nullish (row_rawName r) "")).
Qed.

(** A stored date is the first ten code units of the date text that was
    supplied (of the text "undefined" when a manual entry has no date), or
    the whole text when it is shorter; so no stored date is longer than
    ten. *)
Theorem stored_dates_sliced :
  (forall body uuid,
      String.length (tx_date (manual_tx body uuid))
      = Nat.min 10 (String.length (String_ (body_date body)))
      /\ String.prefix (tx_date (manual_tx body uuid))
                       (String_ (body_date body)) = true)
  /\ (forall r uuid,
         String.length (tx_date (import_tx r uuid))
         = Nat.min 10 (String.length (String_ (row_date r)))
         /\ String.prefix (tx_date (import_tx r uuid))
                          (String_ (row_date r)) = true)
  /\ (forall reqs,
         Forall (fun t => String.length (tx_date t) <= 10)
                (transactions (run randomUUID parse reqs))).
Proof.
  split; [|split].
  - intros. cbn [manual_tx tx_date]. split;
      [apply slice0_length | apply slice0_prefix].
  - intros. cbn [import_tx tx_date]. split;
      [apply slice0_length | apply slice0_prefix].
  - intros reqs. apply run_Forall; intros; cbn [manual_tx import_tx tx_date];
      rewrite slice0_length; lia.
Qed.

(** Every stored category is trimmed and non-empty. *)
Lemma stored_categories_trimmed (reqs : list Request) :
  Forall (fun t => tx_category t <> "" /\ trim (tx_category t) = tx_category t)
         (transactions (run randomUUID parse reqs)).
Proof.
  apply run_Forall.
  - intros body uuid. split; [apply manual_tx_category_nonempty|].
    cbn [manual_tx tx_category].
    destruct (truthy_string _); [apply categorize_trimmed | reflexivity].
  - intros r uuid. split; [apply import_tx_category_nonempty|].
    cbn [import_tx tx_category].
    destruct (trim (nullish (row_bankCategory r) "")) eqn:B; cbn [truthy_string].
    + destruct (truthy_string _); [apply categorize_trimmed | reflexivity].
    + rewrite <- B. apply trim_idempotent.
Qed.

End StoredTransactions.

(** ** Identifiers and the growth of the store *)

Section StoreGrowth.

Variable randomUUID : nat -> string.
Variable parse : string -> string + list Row.

(** The store only grows between resets: a sequence of requests without a
    reset keeps every transaction that was stored, in place and unchanged,
    and appends one transaction for each identifier it draws. *)
Theorem store_append_only (st : Store) (reqs : list Request) :
  forallb (fun req => negb (isReset req)) reqs = true ->
  exists new,
    transactions (runFrom randomUUID parse st reqs) = transactions st ++ new
    /\ uuids_drawn (runFrom randomUUID parse st reqs)
       = uuids_drawn st + length new.
Proof.
  unfold runFrom. revert st. induction reqs as [|req reqs IH]; intros st H.
  - exists []. cbn. rewrite app_nil_r. split; [reflexivity | lia].
  - cbn [forallb] in H. apply andb_prop in H as [Hr H]. cbn [fold_left].
    pose proof (handle_appends randomUUID parse st req) as A.
    destruct (isReset req); [discriminate|].
    destruct A as (new1 & E1 & N1 & _).
    destruct (IH (handle randomUUID parse st req) H) as (new2 & E2 & N2).
    exists (new1 ++ new2). rewrite E2, E1, N2, N1, app_assoc, length_app.
    split; [reflexivity | lia].
Qed.

(** The identifiers in the store are those of an unbroken run of calls of
    the generator, the latest ones. *)
Lemma runFrom_ids (reqs : list Request) (st : Store) (a : nat) :
  a <= uuids_drawn st ->
  List.map tx_id (transactions st)
  = List.map randomUUID (seq a (uuids_drawn st - a)) ->
  exists a',
    a' <= uuids_drawn (runFrom randomUUID parse st reqs)
    /\ List.map tx_id (transactions (runFrom randomUUID parse st reqs))
       = List.map randomUUID
           (seq a' (uuids_drawn (runFrom randomUUID parse st reqs) - a')).
Proof.
  unfold runFrom. revert st a. induction reqs as [|req reqs IH]; intros st a La E.
  - exists a. auto.
  - cbn [fold_left].
    pose proof (handle_appends randomUUID parse st req) as A.
    destruct (isReset req).
    + destruct A as [T N].
      apply (IH _ (uuids_drawn st)); [lia|].
      rewrite T, N, Nat.sub_diag. reflexivity.
    + destruct A as (new & T & N & I & _).
      apply (IH _ a); [lia|].
      rewrite T, N, List.map_app, E, I.
      replace (uuids_drawn st + length new - a)
        with ((uuids_drawn st - a) + length new) by lia.
      rewrite seq_app, List.map_app.
      replace (a + (uuids_drawn st - a)) with (uuids_drawn st) by lia.
      reflexivity.
Qed.

(** No two stored transactions share an identifier, provided the
    identifiers the generator has handed out so far are pairwise distinct;
    this holds across resets as well. *)
Theorem stored_ids_unique (reqs : list Request) :
  NoDup (List.map randomUUID
           (seq 0 (uuids_drawn (run randomUUID parse reqs)))) ->
  NoDup (List.map tx_id (transactions (run randomUUID parse reqs))).
Proof.
  intros H.
  destruct (runFrom_ids reqs {| transactions := []; uuids_drawn := 0 |} 0)
    as (a & La & E); [cbn; lia | reflexivity |].
  change (runFrom randomUUID parse {| transactions := []; uuids_drawn := 0 |}
            reqs) with (run randomUUID parse reqs) in La, E.
  rewrite E.
  set (n := uuids_drawn (run randomUUID parse reqs)) in *.
  replace n with (a + (n - a)) in H by lia.
  rewrite seq_app, List.map_app in H.
  apply NoDup_app in H as (_ & _ & H). exact H.
Qed.

End StoreGrowth.

(** The theorem for a manual entry followed by an import, from the empty
    store. *)
Lemma store_append_only_witness :
  forallb (fun req => negb (isReset req)) (firstn 2 sampleSession) = true
  /\ exists new,
      transactions (runFrom countingUUID twoRowParser emptyStore
                            (firstn 2 sampleSession))
      = transactions emptyStore ++ new
      /\ uuids_drawn (runFrom countingUUID twoRowParser emptyStore
                              (firstn 2 sampleSession))
         = uuids_drawn emptyStore + length new.
Proof.
  split; [reflexivity|].
  apply (store_append_only countingUUID twoRowParser emptyStore
           (firstn 2 sampleSession)).
  reflexivity.
Defined.

(** The theorem for the sample session, which contains a reset. *)
Lemma stored_ids_unique_witness :
  NoDup (List.map countingUUID
           (seq 0 (uuids_drawn (run countingUUID twoRowParser sampleSession))))
  /\ NoDup (List.map tx_id
              (transactions (run countingUUID twoRowParser sampleSession))).
Proof.
  assert (H : NoDup (List.map countingUUID
             (seq 0 (uuids_drawn (run countingUUID twoRowParser sampleSession))))).
  { apply (bool_decide_unpack _). vm_compute. exact I. }
  split; [exact H|].
  exact (stored_ids_unique countingUUID twoRowParser sampleSession H).
Defined.

(** ** More on the import *)

Lemma signedAmount_neg (credit : bool) (n : number) :
  signedAmount credit (neg n) = signedAmount credit n.
Proof. destruct credit; number_cases n. Qed.

Lemma or_else_truthy (a b : option string) :
  truthy a = true -> a ||| b = a.
Proof. unfold or_else. intros ->. reflexivity. Qed.

Lemma row_rawName_firstPresent (r : Row) :
  trim (nullish (row_rawName r) "")
  = trim (nullish (firstPresent r nameAliases) "").
Proof.
  unfold nameAliases, row_rawName, or_else. rewrite !firstPresent_cons.
  cbn [firstPresent].
  repeat match goal with
         | |- context [truthy (r !! ?k)] =>
             let E := fresh "E" in destruct (truthy (r !! k)) eqn:E; rewrite ?E
         end; try reflexivity.
  unfold truthy in *. destruct (r !! "Merchant Name") as [[|c s]|];
    try discriminate; reflexivity.
Qed.

Section ImportProperties.

Variable randomUUID : nat -> string.
Variable parse : string -> string + list Row.

(** The name of an imported transaction is the trimmed value of the first
    name alias, in the order name, Description, Name, Merchant, Merchant
    Name, that is present and not empty, or the placeholder when there is
    none or when that value is blank. *)
Theorem import_name_resolution (r : Row) (uuid : string) :
  tx_name (import_tx r uuid)
  = storedName (trim (nullish (firstPresent r nameAliases) "")).
Proof.
  unfold import_tx, storedName. cbn [tx_name].
  rewrite row_rawName_firstPresent. reflexivity.
Qed.

Lemma importedOf_app (n : nat) (rows1 rows2 : list Row) :
  importedOf randomUUID n (rows1 ++ rows2)
  = importedOf randomUUID n rows1
    ++ importedOf randomUUID (n + length (importedOf randomUUID n rows1)) rows2.
Proof.
  revert n. induction rows1 as [|r rows1 IH]; intros n.
  - cbn. rewrite Nat.add_0_r. reflexivity.
  - cbn [app importedOf]. destruct (row_skipped r); [apply IH|].
    cbn [app length]. rewrite IH. do 3 f_equal. lia.
Qed.

(** Importing one document is the same as importing its first rows and then
    the remaining rows as a second document: the store ends up the same,
    and the created transactions are those of the two imports in order. *)
Theorem import_rows_app (st : Store) (rows1 rows2 : list Row) :
  import_rows randomUUID st (rows1 ++ rows2)
  = let '(st1, imported1) := import_rows randomUUID st rows1 in
    let '(st2, imported2) := import_rows randomUUID st1 rows2 in
    (st2, imported1 ++ imported2).
Proof.
  rewrite !import_rows_eq. cbv beta iota zeta.
  cbn [transactions uuids_drawn]. rewrite importedOf_app, length_app, <- app_assoc.
  f_equal. f_equal. lia.
Qed.

Lemma importedOf_le (n : nat) (rows : list Row) :
  length (importedOf randomUUID n rows) <= length rows.
Proof. rewrite importedOf_length. apply List.filter_length_le. Qed.

(** Whatever the request, an import that answers with an error leaves the
    store untouched, and one that succeeds appends exactly as many
    transactions as it reports, at most one for each record of the document;
    its sample is the first five of them, or all of them when there are
    fewer. *)
Theorem import_response_bounds (st : Store) (file : option string) :
  match post_import_csv randomUUID parse st file with
  | (BadRequest _ _, st') => st' = st
  | (Imported n sample, st') =>
      exists new,
        transactions st' = transactions st ++ new
        /\ n = length new
        /\ sample = take 5 new
        /\ length sample = Nat.min 5 n
        /\ match file with
           | Some csvText =>
               match parse csvText with
               | inr rows => n <= length rows
               | inl _ => False
               end
           | None => False
           end
  end.
Proof.
  unfold post_import_csv. destruct file as [csvText|]; [|reflexivity].
  destruct (parse csvText) as [err|rows]; [reflexivity|].
  rewrite import_rows_eq.
  exists (importedOf randomUUID (uuids_drawn st) rows).
  repeat split; [apply length_take | apply importedOf_le].
Qed.

End ImportProperties.

Lemma import_tx_isIncome (r : Row) (uuid : string) :
  isIncome (import_tx r uuid)
  = rowCredit r
    && gt (Math_abs (normalizeAmount (String_ (row_amountRaw r)))) zero.
Proof.
  unfold isIncome, import_tx, rowCredit. cbn [tx_amount].
  rewrite looksLikeCredit_correct, row_bankCategory_eq.
  destruct (looksLikeCredit_spec _ _); cbn [signedAmount andb]; [reflexivity|].
  number_cases (normalizeAmount (String_ (row_amountRaw r))).
Qed.

(** An import none of whose rows looks like a credit creates only
    transactions that the aggregation counts as expenses: their income is
    zero. *)
Theorem import_without_credit_has_no_income
    (randomUUID : nat -> string) (n : nat) (rows : list Row) :
  forallb (fun r => negb (rowCredit r)) rows = true ->
  incomeAmounts (importedOf randomUUID n rows) = []
  /\ income (insights_totals (importedOf randomUUID n rows)) = zero.
Proof.
  intros H.
  assert (E : incomeAmounts (importedOf randomUUID n rows) = []).
  { unfold incomeAmounts. revert n. induction rows as [|r rows IH]; intros n;
      [reflexivity|].
    cbn [forallb] in H. apply andb_prop in H as [Hr H].
    cbn [importedOf]. destruct (row_skipped r); [apply IH, H|].
    cbn [List.filter]. rewrite import_tx_isIncome.
    apply negb_true_iff in Hr. rewrite Hr. cbn [andb]. apply IH, H. }
  split; [exact E|]. rewrite totals_income, E. reflexivity.
Qed.

(** The theorem for the Whole Foods row followed by a row without amount. *)
Lemma import_without_credit_has_no_income_witness :
  forallb (fun r => negb (rowCredit r))
          [wholeFoodsRow; {[ "date" := "2024-01-06" ]}] = true
  /\ incomeAmounts (importedOf countingUUID 0
                      [wholeFoodsRow; {[ "date" := "2024-01-06" ]}]) = []
  /\ income (insights_totals (importedOf countingUUID 0
                      [wholeFoodsRow; {[ "date" := "2024-01-06" ]}])) = zero.
Proof.
  split; [vm_compute; reflexivity|].
  apply (import_without_credit_has_no_income countingUUID 0).
  vm_compute. reflexivity.
Defined.

Lemma amount_insert_fields (r : Row) (v : string) :
  truthy_string v = true ->
  row_amountRaw (<["amount" := v]> r) = Some v
  /\ row_date (<["amount" := v]> r) = row_date r
  /\ row_rawName (<["amount" := v]> r) = row_rawName r
  /\ row_bankCategory (<["amount" := v]> r) = row_bankCategory r.
Proof.
  intros T. unfold row_amountRaw, row_date, row_rawName, row_bankCategory.
  unfold Row in *. rewrite lookup_insert_eq, !lookup_insert_ne by discriminate.
  repeat split. rewrite !(or_else_truthy (Some v)) by exact T. reflexivity.
Qed.

(** Parentheses around the amount of a row make no difference to what the
    import stores: the sign comes from the credit test, so the transaction
    built from an amount cell [(a)] is the one built from [a]. *)
Theorem import_ignores_parentheses (r : Row) (a uuid : string) :
  a <> "" -> noParentheses a = true ->
  import_tx (<["amount" := parenthesized a]> r) uuid
  = import_tx (<["amount" := a]> r) uuid.
Proof.
  intros Ha Hp.
  assert (Ta : truthy_string a = true) by (destruct a; [congruence | reflexivity]).
  destruct (amount_insert_fields r a Ta) as (A1 & D1 & N1 & C1).
  destruct (amount_insert_fields r (parenthesized a) eq_refl)
    as (A2 & D2 & N2 & C2).
  unfold import_tx. rewrite A1, D1, N1, C1, A2, D2, N2, C2.
  cbn [String_].
  rewrite normalizeAmount_parenthesized, (normalizeAmount_plain a Hp),
    signedAmount_neg.
  reflexivity.
Qed.

Lemma import_ignores_parentheses_witness :
  "54.32" <> "" /\ noParentheses "54.32" = true
  /\ import_tx (<["amount" := parenthesized "54.32"]> wholeFoodsRow) "id"
     = import_tx (<["amount" := "54.32"]> wholeFoodsRow) "id".
Proof.
  split; [discriminate|]. split; [reflexivity|].
  apply (import_ignores_parentheses wholeFoodsRow "54.32" "id");
    [discriminate | reflexivity].
Defined.

(** * Further properties of the aggregation and the advice *)

Lemma add_isNaN x y :
  unsignedOrNaN x = true -> unsignedOrNaN y = true ->
  isNaN (add x y) = isNaN x || isNaN y.
Proof.
  unfold unsignedOrNaN. intros Hx Hy.
  destruct (isNaN x) eqn:Nx; [destruct x; try discriminate; reflexivity|].
  destruct (isNaN y) eqn:Ny;
    [destruct y; try discriminate; destruct x; reflexivity|].
  cbn [orb] in *. pose proof (add_nonneg x y Hx Hy) as H.
  destruct (add x y); try reflexivity. discriminate H.
Qed.

Lemma fold_add_isNaN (ms : list number) acc :
  Forall (fun m => unsignedOrNaN m = true) ms ->
  unsignedOrNaN acc = true ->
  isNaN (fold_left add ms acc) = isNaN acc || existsb isNaN ms.
Proof.
  revert acc. induction ms as [|m ms IH]; intros acc Hms Hacc.
  - cbn. rewrite orb_false_r. reflexivity.
  - inversion Hms; subst. cbn [fold_left existsb].
    rewrite IH by (assumption || apply add_unsignedOrNaN; assumption).
    rewrite add_isNaN by assumption. rewrite orb_assoc. reflexivity.
Qed.

Lemma income_nonneg (t : Transaction) : isIncome t = true -> nonneg (tx_amount t) = true.
Proof. unfold isIncome. number_cases (tx_amount t). Qed.

Lemma fold_add_nonneg (ms : list number) acc :
  Forall (fun m => nonneg m = true) ms -> nonneg acc = true ->
  nonneg (fold_left add ms acc) = true.
Proof.
  revert acc. induction ms as [|m ms IH]; intros acc Hms Hacc; [exact Hacc|].
  inversion Hms; subst. cbn [fold_left]. apply IH; [assumption|].
  apply add_nonneg; assumption.
Qed.

Lemma isNaN_abs (x : number) : isNaN (Math_abs x) = isNaN x.
Proof. destruct x; reflexivity. Qed.

Lemma nonneg_not_NaN (x : number) : nonneg x = true -> isNaN x = false.
Proof. destruct x; cbn; intros H; try discriminate; reflexivity. Qed.

Lemma expenseMagnitudes_hasNaN (l : list Transaction) :
  existsb isNaN (expenseMagnitudes l) = hasNaN l.
Proof.
  unfold expenseMagnitudes, hasNaN.
  induction l as [|t l IH]; [reflexivity|].
  cbn [List.filter existsb]. destruct (isIncome t) eqn:I; cbn [negb].
  - rewrite (nonneg_not_NaN _ (income_nonneg t I)). exact IH.
  - cbn [List.map existsb]. unfold magnitude at 1. rewrite isNaN_abs, IH.
    reflexivity.
Qed.

Lemma fold_buckets_shape (l : list Transaction) i e
    (b : gmap string Primitive) :
  map_Forall (fun c v => bucketShape c v = true) b ->
  map_Forall (fun c v => bucketShape c v = true)
             (snd (fold_left totals_step l (i, e, b))).
Proof.
  revert i e b. induction l as [|t l IH]; intros i e b Hb; [exact Hb|].
  cbn [fold_left]. unfold totals_step at 2. fold (categoryOf t) (magnitude t).
  destruct (gt (tx_amount t) zero); [apply IH, Hb|].
  apply IH. unfold setProperty.
  destruct (String.eqb (categoryOf t) "__proto__") eqn:Hp; [exact Hb|].
  apply map_Forall_insert_2; [|exact Hb].
  pose proof (magnitude_unsignedOrNaN t) as Hm.
  unfold bucket_or_zero, getProperty.
  destruct (b !! categoryOf t) as [v|] eqn:L.
  - pose proof (Hb _ _ L) as Hv. destruct v as [x|s]; cbn [bucketShape] in Hv.
    + apply andb_prop in Hv as [Hk Hx]. cbn [ToBoolean].
      destruct (truthy_number x); cbn [plus ToPrimitive bucketShape];
        rewrite Hk; cbn [andb]; apply add_unsignedOrNaN; auto.
    + apply andb_prop in Hv as [Hk Hs]. cbn [ToBoolean]. rewrite Hs.
      cbn [plus ToPrimitive bucketShape]. rewrite Hk. cbn [andb].
      apply truthy_append, Hs.
  - unfold inherited. destruct (inheritedName (categoryOf t)) eqn:Hk;
      cbn [negb].
    + rewrite Hp.
      destruct (String.eqb (categoryOf t) "constructor");
        cbn [ToBoolean plus ToPrimitive bucketShape];
        rewrite Hk, Hp; reflexivity.
    + cbn [ToBoolean plus ToPrimitive bucketShape]. rewrite Hk. cbn [negb andb].
      apply add_unsignedOrNaN; [reflexivity | exact Hm].
Qed.

Lemma expenses_isNaN (l : list Transaction) :
  isNaN (expenses (insights_totals l)) = hasNaN l.
Proof.
  rewrite totals_expenses. unfold sumOf.
  rewrite fold_add_isNaN
    by (apply expenseMagnitudes_unsignedOrNaN || reflexivity).
  apply expenseMagnitudes_hasNaN.
Qed.

(** The totals never carry a minus sign.  [income] is never NaN, whatever
    the amounts; [expenses] is NaN exactly when some amount of the
    collection is NaN; and every value of [byCategory] under a key that
    [Object.prototype] does not have is a number that is NaN or without a
    minus sign, while a value under a key that [Object.prototype] has is a
    text that is not empty, and [__proto__] is never a key. *)
Theorem totals_sign_and_NaN (l : list Transaction) :
  nonneg (income (insights_totals l)) = true
  /\ unsignedOrNaN (expenses (insights_totals l)) = true
  /\ isNaN (expenses (insights_totals l)) = hasNaN l
  /\ map_Forall (fun c v => bucketShape c v = true)
                (byCategory (insights_totals l)).
Proof.
  rewrite totals_income, totals_expenses. unfold sumOf.
  split; [|split; [|split]].
  - apply fold_add_nonneg; [|reflexivity].
    unfold incomeAmounts. apply List.Forall_forall. intros m Hm.
    apply List.in_map_iff in Hm as (t & <- & Ht).
    apply List.filter_In in Ht as [_ Ht]. apply income_nonneg, Ht.
  - apply fold_add_unsignedOrNaN;
      [apply expenseMagnitudes_unsignedOrNaN | reflexivity].
  - fold (sumOf (expenseMagnitudes l)). rewrite <- totals_expenses.
    apply expenses_isNaN.
  - rewrite insights_totals_eq. cbn [byCategory].
    apply fold_buckets_shape, map_Forall_empty.
Qed.

(** ** The advice *)

Lemma advice_locals_summary (l : list Transaction) :
  advice_locals l = insights_summary l.
Proof. reflexivity. Qed.

Lemma summary_eq (l : list Transaction) :
  insights_summary l
  = let inc := income (insights_totals l) in
    let expn := expenses (insights_totals l) in
    {| s_income := inc; s_expenses := expn; s_net := sub inc expn;
       s_savingsRate := if gt inc zero then div (sub inc expn) inc else zero |}.
Proof.
  rewrite totals_income, totals_expenses. unfold insights_summary.
  rewrite summary_fold_sums. reflexivity.
Qed.

(** The advice is one of four lists: the urgent message, the warning, the
    urgent message followed by the warning, or the message "You're on track"
    alone; it is never empty.  The urgent message is present exactly when
    the net of the summary is below zero, the warning exactly when the
    income is above zero and the savings rate below 0.1, and the message
    "You're on track" exactly when neither holds. *)
Theorem advice_shape (l : list Transaction) :
  let s := insights_summary l in
  let overspent := lt (s_net s) zero in
  let lowRate := gt (s_income s) zero && lt (s_savingsRate s) one_tenth in
  In (insights_advice l)
     [ [spendingExceedsIncome]; [lowSavingsRate];
       [spendingExceedsIncome; lowSavingsRate]; [onTrack] ]
  /\ (In spendingExceedsIncome (insights_advice l) <-> overspent = true)
  /\ (In lowSavingsRate (insights_advice l) <-> lowRate = true)
  /\ (In onTrack (insights_advice l) <-> overspent = false /\ lowRate = false).
Proof.
  cbn zeta. unfold insights_advice. rewrite advice_locals_summary.
  destruct (lt (s_net (insights_summary l)) zero);
    destruct (gt (s_income (insights_summary l)) zero
              && lt (s_savingsRate (insights_summary l)) one_tenth);
    cbn; unfold spendingExceedsIncome, lowSavingsRate, onTrack;
    intuition (discriminate || congruence).
Qed.

(** A collection that contains a NaN amount always gets the single message
    "You're on track": the net and the savings rate are then NaN, and every
    comparison with NaN fails. *)
Theorem advice_with_NaN (l : list Transaction) :
  hasNaN l = true -> insights_advice l = [onTrack].
Proof.
  intros H. unfold insights_advice. rewrite advice_locals_summary, summary_eq.
  cbn zeta. cbn [s_net s_income s_savingsRate].
  pose proof (expenses_isNaN l) as N. rewrite H in N.
  destruct (expenses (insights_totals l)); try discriminate N.
  assert (S : sub (income (insights_totals l)) S754_nan = S754_nan)
    by (destruct (income (insights_totals l)); reflexivity).
  rewrite S. cbn [lt SFltb SFcompare].
  destruct (gt (income (insights_totals l)) zero); reflexivity.
Qed.

Lemma advice_with_NaN_witness :
  hasNaN importedFees = true /\ insights_advice importedFees = [onTrack].
Proof.
  split; [reflexivity|]. apply (advice_with_NaN importedFees). reflexivity.
Defined.

(** A collection with spending and no income gets the urgent message and
    nothing else. *)
Theorem advice_spending_without_income (l : list Transaction) :
  forallb (fun t => negb (isIncome t)) l = true ->
  gt (expenses (insights_totals l)) zero = true ->
  insights_advice l = [spendingExceedsIncome].
Proof.
  intros Hi He. unfold insights_advice. rewrite advice_locals_summary, summary_eq.
  cbn zeta. cbn [s_net s_income s_savingsRate].
  assert (I : income (insights_totals l) = zero).
  { rewrite totals_income. unfold incomeAmounts.
    replace (List.filter isIncome l) with (@nil Transaction); [reflexivity|].
    symmetry. clear He. induction l as [|t l IH]; [reflexivity|].
    cbn [forallb] in Hi. apply andb_prop in Hi as [Ht Hi].
    cbn [List.filter]. apply negb_true_iff in Ht. rewrite Ht.
    apply IH, Hi. }
  rewrite I in *. revert He.
  number_cases (expenses (insights_totals l)).
Qed.

(** * Reading money texts *)

Lemma trim_noWhiteSpace (s : string) : noWhiteSpace s = true -> trim s = s.
Proof.
  intros H. unfold trim.
  assert (E : trimEnd s = s).
  { induction s as [|c s IH]; [reflexivity|].
    cbn [noWhiteSpace] in H. apply andb_prop in H as [Hc H].
    cbn [trimEnd]. rewrite (IH H). apply negb_true_iff in Hc. rewrite Hc.
    destruct s; reflexivity. }
  rewrite E. destruct s as [|c s]; [reflexivity|].
  cbn [noWhiteSpace] in H. apply andb_prop in H as [Hc _].
  apply negb_true_iff in Hc. cbn [trimStart]. rewrite Hc. reflexivity.
Qed.

(** On a text that starts like an unsigned decimal literal, [Number] is the
    rounded value of the literal. *)
Lemma StringToNumber_plain (t : string) :
  noWhiteSpace t = true -> plainStart t = true ->
  StringToNumber t
  = match parseUnsignedDecimal t with
    | Some (m, e) => of_decimal m e
    | None => NaN
    end.
Proof.
  intros W P. unfold StringToNumber. rewrite (trim_noWhiteSpace t W).
  destruct t as [|c1 rest]; [discriminate P|].
  cbn [plainStart] in P. apply andb_prop in P as [P1 P2].
  destruct c1 as [[] [] [] [] [] [] [] []]; try discriminate P1;
    try reflexivity.
  destruct rest as [|c2 rest]; [reflexivity|].
  destruct c2 as [[] [] [] [] [] [] [] []]; try discriminate P2; reflexivity.
Qed.

Lemma takeDigits_digitText (ds rest : string) (acc cnt : Z) :
  digitText ds = true ->
  match rest with
  | EmptyString => True
  | String c _ => isDigit c = false
  end ->
  takeDigits 10 (ds +:+ rest) acc cnt
  = (digitsValue ds acc, (cnt + Z.of_nat (String.length ds))%Z, rest).
Proof.
  revert acc cnt. induction ds as [|c ds IH]; intros acc cnt D R.
  - change ("" +:+ rest) with rest. cbn [digitsValue String.length].
    rewrite Z.add_0_r. destruct rest as [|c rest]; [reflexivity|].
    cbn [takeDigits]. unfold isDigit in R.
    destruct (digitValue 10 c); [discriminate R | reflexivity].
  - cbn [digitText] in D. apply andb_prop in D as [Dc D].
    rewrite append_cons. cbn [takeDigits digitsValue String.length].
    unfold isDigit in Dc. destruct (digitValue 10 c) as [d|]; [|discriminate Dc].
    change (Z.of_N 10) with 10%Z. rewrite IH by assumption.
    f_equal. f_equal. lia.
Qed.

Lemma digitsValue_app (s t : string) (acc : Z) :
  digitsValue (s +:+ t) acc = digitsValue t (digitsValue s acc).
Proof.
  revert acc. induction s as [|c s IH]; intros acc; [reflexivity|].
  rewrite append_cons. cbn [digitsValue].
  destruct (digitValue 10 c); apply IH.
Qed.

Lemma digitsValue_nonneg (s : string) (acc : Z) :
  (0 <= acc)%Z -> (0 <= digitsValue s acc)%Z.
Proof.
  revert acc. induction s as [|c s IH]; intros acc H; [exact H|].
  cbn [digitsValue]. destruct (digitValue 10 c) as [d|] eqn:E; [|apply IH, H].
  apply IH. unfold digitValue in E.
  repeat match type of E with
         | context [if ?b then _ else _] => destruct b
         end; try discriminate; injection E as <-; lia.
Qed.

(** What is left of a money text once commas and dollar signs are removed:
    its digits. *)
Lemma moneyText_cleaned (a : string) :
  moneyText a = true ->
  let ds := remove_class amountPunctuation a in
  digitText ds = true
  /\ (forall acc, digitsValue ds acc = digitsValue a acc)
  /\ String.length ds = countDigits a
  /\ noParentheses a = true.
Proof.
  cbn zeta. induction a as [|c a IH]; intros M.
  - repeat split.
  - cbn [moneyText] in M. apply andb_prop in M as [Mc M].
    destruct (IH M) as (D & V & L & P).
    assert (C : isDigit c = true /\ amountPunctuation c = false
                /\ negb (Ascii.eqb c "(") && negb (Ascii.eqb c ")") = true
                \/ isDigit c = false /\ amountPunctuation c = true
                   /\ digitValue 10 c = None
                   /\ negb (Ascii.eqb c "(") && negb (Ascii.eqb c ")") = true).
    { assert (A : allAscii (fun c =>
                implb (isDigit c || Ascii.eqb c "," || Ascii.eqb c "$")
                  (if isDigit c
                   then negb (amountPunctuation c)
                        && negb (Ascii.eqb c "(") && negb (Ascii.eqb c ")")
                   else amountPunctuation c
                        && negb (Ascii.eqb c "(") && negb (Ascii.eqb c ")")))
                = true) by (vm_compute; reflexivity).
      pose proof (allAscii_spec _ A c) as Ac. cbv beta in Ac.
      rewrite Mc in Ac. cbn [implb] in Ac.
      unfold isDigit in *. destruct (digitValue 10 c).
      - left. apply andb_prop in Ac as [Ac Q2]. apply andb_prop in Ac as [Q0 Q1].
        apply negb_true_iff in Q0. rewrite Q1, Q2. auto.
      - right. apply andb_prop in Ac as [Ac Q2]. apply andb_prop in Ac as [Q0 Q1].
        rewrite Q1, Q2. auto. }
    cbn [remove_class noParentheses].
    destruct C as [(Dc & Pc & Np)|(Dc & Pc & Vc & Np)]; rewrite Pc, Np, P.
    + cbn [digitText String.length countDigits]. rewrite Dc, D, L.
      repeat split. intros acc. cbn [digitsValue].
      destruct (digitValue 10 c); apply V.
    + cbn [countDigits]. rewrite Dc. repeat split; try assumption.
      intros acc. cbn [digitsValue]. rewrite Vc. apply V.
Qed.

Lemma digit_facts (c : ascii) :
  isDigit c = true ->
  isWhiteSpace c = false /\ amountPunctuation c = false
  /\ Ascii.eqb c "(" = false /\ Ascii.eqb c ")" = false.
Proof.
  intros H.
  assert (A : allAscii (fun c =>
              implb (isDigit c)
                (negb (isWhiteSpace c) && negb (amountPunctuation c)
                 && negb (Ascii.eqb c "(") && negb (Ascii.eqb c ")"))) = true)
    by (vm_compute; reflexivity).
  pose proof (allAscii_spec _ A c) as Ac. cbv beta in Ac. rewrite H in Ac.
  cbn [implb] in Ac.
  repeat (apply andb_prop in Ac as [Ac ?]).
  repeat match goal with
         | H : negb _ = true |- _ => apply negb_true_iff in H
         end.
  auto.
Qed.

Lemma digitText_facts (b : string) :
  digitText b = true ->
  noWhiteSpace b = true /\ noParentheses b = true
  /\ remove_class amountPunctuation b = b.
Proof.
  induction b as [|c b IH]; intros H; [auto|].
  cbn [digitText] in H. apply andb_prop in H as [Hc H].
  destruct (IH H) as (W & P & R).
  destruct (digit_facts c Hc) as (Wc & Pc & Oc & Cc).
  cbn [noWhiteSpace noParentheses remove_class].
  rewrite Wc, Pc, Oc, Cc, W, P, R. auto.
Qed.

Lemma of_decimal_zero_exponent (v : Z) : (0 <= v)%Z -> of_decimal v 0 = of_Z v.
Proof.
  intros H. destruct v as [|p|p]; [reflexivity| |lia].
  unfold of_decimal. change (0 <=? 0)%Z with true. cbv beta iota.
  f_equal. lia.
Qed.

Lemma normalizeAmount_whole (a : string) :
  moneyText a = true -> 0 < countDigits a ->
  normalizeAmount a = of_Z (digitsValue a 0).
Proof.
  intros M C. destruct (moneyText_cleaned a M) as (D & V & L & P).
  rewrite (normalizeAmount_plain a P).
  set (ds := remove_class amountPunctuation a) in *.
  destruct (digitText_facts ds D) as (W & _ & _).
  assert (S : plainStart ds = true).
  { destruct ds as [|c1 [|c2 r]]; cbn [String.length] in L; [exfalso; lia| |];
      cbn [digitText] in D; cbn [plainStart].
    - apply andb_prop in D as [-> _]. reflexivity.
    - apply andb_prop in D as [-> D]. apply andb_prop in D as [-> _].
      reflexivity. }
  rewrite (StringToNumber_plain ds W S). unfold parseUnsignedDecimal.
  rewrite <- (append_empty_r ds) at 1.
  rewrite takeDigits_digitText by (exact D || exact I).
  cbv beta iota. rewrite L.
  replace (0 <? 0 + Z.of_nat (countDigits a))%Z with true
    by (symmetry; apply Z.ltb_lt; lia).
  cbn [parseExponent]. rewrite V.
  apply of_decimal_zero_exponent, digitsValue_nonneg. lia.
Qed.

(** A text of digits, commas and dollar signs with at least one digit is
    normalized to the integer its digits spell, rounded to binary64:
    thousands separators and the currency sign do not change the value. *)
Theorem normalizeAmount_money_text (a : string) :
  moneyText a = true -> 0 < countDigits a ->
  normalizeAmount a = of_Z (digitsValue a 0).
Proof. apply normalizeAmount_whole. Qed.

Lemma normalizeAmount_money_text_witness :
  moneyText "$1,234,567" = true /\ 0 < countDigits "$1,234,567"
  /\ normalizeAmount "$1,234,567" = of_Z (digitsValue "$1,234,567" 0).
Proof.
  split; [reflexivity|]. split; [vm_compute; lia|].
  apply (normalizeAmount_money_text "$1,234,567"); [reflexivity | vm_compute; lia].
Defined.

Lemma noWhiteSpace_app (s t : string) :
  noWhiteSpace (s +:+ t) = noWhiteSpace s && noWhiteSpace t.
Proof.
  induction s as [|c s IH]; [reflexivity|].
  rewrite append_cons. cbn [noWhiteSpace]. rewrite IH, andb_assoc. reflexivity.
Qed.

Lemma noParentheses_app (s t : string) :
  noParentheses (s +:+ t) = noParentheses s && noParentheses t.
Proof.
  induction s as [|c s IH]; [reflexivity|].
  rewrite append_cons. cbn [noParentheses]. rewrite IH, andb_assoc. reflexivity.
Qed.

(** A money text followed by a dot and decimals is normalized to the
    decimal number its digits spell, rounded to nearest: the digits of both
    parts scaled by ten to the minus number of decimals. *)
Theorem normalizeAmount_decimal_text (a b : string) :
  moneyText a = true -> digitText b = true ->
  0 < countDigits a + String.length b ->
  normalizeAmount (a +:+ "." +:+ b)
  = of_decimal (digitsValue (a +:+ b) 0) (- Z.of_nat (String.length b)).
Proof.
  intros M B C. destruct (moneyText_cleaned a M) as (D & V & L & P).
  destruct (digitText_facts b B) as (Wb & Pb & Rb).
  rewrite normalizeAmount_plain
    by (rewrite !noParentheses_app, P, Pb; reflexivity).
  rewrite !remove_class_app, Rb.
  change (remove_class amountPunctuation ".") with ".".
  set (ds := remove_class amountPunctuation a) in *.
  destruct (digitText_facts ds D) as (W & _ & _).
  assert (S : plainStart (ds +:+ "." +:+ b) = true).
  { destruct ds as [|c1 [|c2 r]]; cbn [digitText] in D.
    - change ("" +:+ "." +:+ b) with (String "." b).
      destruct b as [|c b]; [reflexivity|].
      cbn [digitText] in B. apply andb_prop in B as [Bc _].
      cbn [plainStart]. rewrite Bc. reflexivity.
    - apply andb_prop in D as [Dc _].
      change (String c1 "" +:+ "." +:+ b) with (String c1 (String "." b)).
      cbn [plainStart]. rewrite Dc. reflexivity.
    - apply andb_prop in D as [D1 D]. apply andb_prop in D as [D2 _].
      rewrite !append_cons. cbn [plainStart]. rewrite D1, D2. reflexivity. }
  rewrite StringToNumber_plain
    by (exact S || rewrite !noWhiteSpace_app, W, Wb; reflexivity).
  unfold parseUnsignedDecimal.
  change ("." +:+ b) with (String "." b).
  rewrite takeDigits_digitText by (exact D || reflexivity).
  cbv beta iota. rewrite <- (append_empty_r b) at 1.
  rewrite takeDigits_digitText by (exact B || exact I).
  cbv beta iota. rewrite L.
  replace (0 <? 0 + Z.of_nat (countDigits a) + (0 + Z.of_nat (String.length b)))%Z
    with true by (symmetry; apply Z.ltb_lt; lia).
  cbn [parseExponent]. rewrite V, digitsValue_app.
  f_equal.
Qed.

Lemma normalizeAmount_decimal_text_witness :
  moneyText "$1,234" = true /\ digitText "50" = true
  /\ 0 < countDigits "$1,234" + String.length "50"
  /\ normalizeAmount ("$1,234" +:+ "." +:+ "50")
     = of_decimal (digitsValue ("$1,234" +:+ "50") 0)
                  (- Z.of_nat (String.length "50")).
Proof.
  split; [reflexivity|]. split; [reflexivity|]. split; [vm_compute; lia|].
  apply (normalizeAmount_decimal_text "$1,234" "50");
    [reflexivity | reflexivity | vm_compute; lia].
Defined.

(** * The browser client *)

(** ** The category list and the filter *)

Lemma insertSorted_Permutation (x : string) (l : list string) :
  Permutation (insertSorted x l) (x :: l).
Proof.
  induction l as [|y l IH]; cbn [insertSorted]; [reflexivity|].
  destruct (String.leb x y); [reflexivity|].
  rewrite IH. apply perm_swap.
Qed.

Lemma sortStrings_Permutation (l : list string) : Permutation (sortStrings l) l.
Proof.
  unfold sortStrings. induction l as [|x l IH]; cbn [fold_right]; [reflexivity|].
  rewrite insertSorted_Permutation, IH. reflexivity.
Qed.

Lemma insertSorted_sorted (x : string) (l : list string) :
  sortedStrings l = true -> sortedStrings (insertSorted x l) = true.
Proof.
  induction l as [|y l IH]; intros H; [reflexivity|].
  cbn [insertSorted]. destruct (String.leb x y) eqn:L.
  - cbn [sortedStrings]. rewrite L. exact H.
  - assert (Lyx : String.leb y x = true)
      by (destruct (String.leb_total x y) as [E|E]; congruence).
    destruct l as [|z l].
    + cbn [insertSorted sortedStrings]. rewrite Lyx. reflexivity.
    + cbn [sortedStrings] in H. apply andb_prop in H as [Hyz H].
      specialize (IH H). cbn [insertSorted] in *.
      destruct (String.leb x z); cbn [sortedStrings] in *;
        rewrite ?Lyx, ?Hyz; exact IH.
Qed.

Lemma sortStrings_sorted (l : list string) : sortedStrings (sortStrings l) = true.
Proof.
  unfold sortStrings. induction l as [|x l IH]; [reflexivity|].
  cbn [fold_right]. apply insertSorted_sorted, IH.
Qed.

Lemma dedupe_In (l : list string) (x : string) : In x (dedupe l) <-> In x l.
Proof.
  induction l as [|y l IH]; [reflexivity|].
  cbn [dedupe In]. rewrite List.filter_In, IH.
  destruct (String.eqb_spec y x) as [->|N]; cbn [negb]; intuition congruence.
Qed.

Lemma dedupe_NoDup (l : list string) : List.NoDup (dedupe l).
Proof.
  induction l as [|y l IH]; cbn [dedupe]; constructor.
  - rewrite List.filter_In, String.eqb_refl. cbn. intuition discriminate.
  - apply List.NoDup_filter, IH.
Qed.

Lemma categories_In (tx : list Tx) (c : string) :
  In c (categories tx) <-> exists t, In t tx /\ displayCategory t = c.
Proof.
  unfold categories.
  rewrite (Permutation_in' (eq_refl c) (sortStrings_Permutation _)).
  rewrite dedupe_In, List.in_map_iff. firstorder.
Qed.

Lemma list_sum_cons (a : nat) (l : list nat) :
  list_sum (a :: l) = a + list_sum l.
Proof. reflexivity. Qed.

Lemma sum_indicator_absent (x : string) (cs : list string) :
  ~ In x cs ->
  list_sum (List.map (fun c => if String.eqb x c then 1 else 0) cs) = 0.
Proof.
  induction cs as [|d cs IH]; intros H; [reflexivity|].
  cbn [List.map]. rewrite list_sum_cons.
  destruct (String.eqb_spec x d) as [->|N]; [elim H; left; reflexivity|].
  apply IH. intros I. apply H. right. exact I.
Qed.

Lemma sum_indicator (x : string) (cs : list string) :
  List.NoDup cs -> In x cs ->
  list_sum (List.map (fun c => if String.eqb x c then 1 else 0) cs) = 1.
Proof.
  induction 1 as [|c cs Hc _ IH]; cbn [In List.map]; [tauto|].
  rewrite list_sum_cons. intros [->|Hx].
  - rewrite String.eqb_refl, sum_indicator_absent by exact Hc. reflexivity.
  - destruct (String.eqb_spec x c) as [->|N]; [contradiction|].
    rewrite IH by exact Hx. reflexivity.
Qed.

Lemma list_sum_add {A} (f g : A -> nat) (l : list A) :
  list_sum (List.map (fun x => f x + g x) l)
  = list_sum (List.map f l) + list_sum (List.map g l).
Proof.
  induction l as [|x l IH]; [reflexivity|].
  cbn [List.map]. rewrite !list_sum_cons, IH. lia.
Qed.

Lemma list_sum_zero {A} (l : list A) :
  list_sum (List.map (fun _ => 0) l) = 0.
Proof.
  induction l as [|x l IH]; [reflexivity|].
  cbn [List.map]. rewrite list_sum_cons, IH. reflexivity.
Qed.

(** Counting the elements of a list by the value of [f], over a list of
    distinct values that contains every value taken, counts each element
    once. *)
Lemma count_by_value {A} (f : A -> string) (cs : list string) (l : list A) :
  List.NoDup cs -> (forall t, In t l -> In (f t) cs) ->
  list_sum (List.map
              (fun c => length (List.filter (fun t => String.eqb (f t) c) l)) cs)
  = length l.
Proof.
  intros N. induction l as [|t l IH]; intros H.
  - cbn [List.filter length]. apply list_sum_zero.
  - cbn [List.filter length].
    rewrite (List.map_ext _
               (fun c => (if String.eqb (f t) c then 1 else 0)
                         + length (List.filter (fun t => String.eqb (f t) c) l)))
      by (intros c; destruct (String.eqb (f t) c); reflexivity).
    rewrite list_sum_add, sum_indicator, IH; [reflexivity | | exact N |];
      firstorder.
Qed.

Lemma categories_NoDup (tx : list Tx) : List.NoDup (categories tx).
Proof.
  unfold categories.
  apply (Permutation_NoDup (Permutation_sym (sortStrings_Permutation _))).
  apply dedupe_NoDup.
Qed.

(** The category list of the client contains exactly the display categories
    of the transactions, each once, in ascending order. *)
Theorem categories_listed (tx : list Tx) :
  (forall c, In c (categories tx)
             <-> exists t, In t tx /\ displayCategory t = c)
  /\ List.NoDup (categories tx)
  /\ sortedStrings (categories tx) = true.
Proof.
  split; [apply categories_In|].
  split; [apply categories_NoDup | apply sortStrings_sorted].
Qed.

(** Choosing a category other than "All" shows exactly the transactions of
    that category, in their order; every listed category shows at least one
    transaction; and when no transaction has the category "All", the lists
    shown for the listed categories contain every transaction exactly
    once. *)
Theorem filter_partitions (tx : list Tx) :
  (forall c t, c <> "All" ->
      (In t (filteredTx c tx) <-> In t tx /\ displayCategory t = c))
  /\ (forall c, In c (categories tx) -> filteredTx c tx <> [])
  /\ (~ In "All" (categories tx) ->
      list_sum (List.map (fun c => length (filteredTx c tx)) (categories tx))
      = length tx).
Proof.
  split; [|split].
  - intros c t Hc. unfold filteredTx.
    destruct (String.eqb_spec c "All") as [E|_]; [contradiction|].
    rewrite List.filter_In.
    destruct (String.eqb_spec (displayCategory t) c); intuition congruence.
  - intros c Hc. apply categories_In in Hc as (t & Ht & Hd).
    unfold filteredTx. destruct (String.eqb c "All").
    + intros E. rewrite E in Ht. exact Ht.
    + intros E. assert (I : In t (List.filter
                  (fun t => String.eqb (displayCategory t) c) tx)).
      { apply List.filter_In. split; [exact Ht|]. rewrite Hd.
        apply String.eqb_refl. }
      rewrite E in I. exact I.
  - intros HA.
    rewrite (List.map_ext_in _
               (fun c => length (List.filter
                           (fun t => String.eqb (displayCategory t) c) tx))).
    + apply count_by_value; [apply categories_NoDup|].
      intros t Ht. apply categories_In. eauto.
    + intros c Hc. unfold filteredTx.
      destruct (String.eqb_spec c "All") as [->|_]; [contradiction | reflexivity].
Qed.

(** The theorem at four transactions in three display categories. *)
Lemma filter_partitions_witness :
  "Gas" <> "All"
  /\ In "Gas" (categories sampleTx)
  /\ ~ In "All" (categories sampleTx)
  /\ filteredTx "Gas" sampleTx <> []
  /\ list_sum (List.map (fun c => length (filteredTx c sampleTx))
                        (categories sampleTx))
     = length sampleTx.
Proof.
  assert (G : In "Gas" (categories sampleTx)) by (vm_compute; tauto).
  assert (A : ~ In "All" (categories sampleTx))
    by (vm_compute; intuition discriminate).
  destruct (filter_partitions sampleTx) as (_ & H2 & H3).
  split; [discriminate|]. split; [exact G|]. split; [exact A|].
  split; [exact (H2 "Gas" G) | exact (H3 A)].
Defined.

(** ** Client and server on the stored transactions *)

Section ClientAndServer.

Variable randomUUID : nat -> string.
Variable parse : string -> string + list Row.

(** For every stored transaction the category the client displays, the
    category the aggregation files it under and the stored category are the
    same text; so every category that has a bucket in [byCategory] appears
    in the client's category list. *)
Theorem client_categories_agree (reqs : list Request) :
  let stored := transactions (run randomUUID parse reqs) in
  Forall (fun t => displayCategory (received t) = tx_category t
                   /\ categoryOf t = tx_category t) stored
  /\ (forall c, c ∈ dom (byCategory (insights_totals stored)) ->
                In c (categories (List.map received stored))).
Proof.
  cbn zeta.
  assert (F : Forall (fun t => displayCategory (received t) = tx_category t
                               /\ categoryOf t = tx_category t)
                     (transactions (run randomUUID parse reqs))).
  { eapply Forall_impl; [apply (stored_categories_trimmed randomUUID parse reqs)|].
    cbn. intros t [N T]. unfold displayCategory, categoryOf, received.
    cbn [c_category]. rewrite T.
    destruct (tx_category t); [contradiction | auto]. }
  split; [exact F|].
  intros c Hc. rewrite byCategory_dom in Hc.
  apply elem_of_difference in Hc as [Hc _]. unfold expenseCategories in Hc.
  apply elem_of_list_to_set, list_elem_of_In, List.in_map_iff in Hc
    as (t & <- & Ht).
  apply List.filter_In in Ht as [Ht _].
  rewrite List.Forall_forall in F. destruct (F t Ht) as [D C].
  apply categories_In. exists (received t). split; [apply List.in_map, Ht|].
  congruence.
Qed.

End ClientAndServer.

(** ** The income field *)

Lemma moneyDotText_cleaned (s : string) :
  moneyDotText s = true ->
  moneyInputCleaned s = remove_class amountPunctuation s
  /\ noParentheses s = true.
Proof.
  unfold moneyInputCleaned.
  assert (A : allAscii (fun c =>
              implb (isDigit c || Ascii.eqb c "," || Ascii.eqb c "$"
                     || Ascii.eqb c ".")
                (Bool.eqb (negb (moneyInputChar c)) (amountPunctuation c)
                 && negb (Ascii.eqb c "(") && negb (Ascii.eqb c ")"))) = true)
    by (vm_compute; reflexivity).
  induction s as [|c s IH]; intros M; [auto|].
  cbn [moneyDotText] in M. apply andb_prop in M as [Mc M].
  destruct (IH M) as [R P].
  pose proof (allAscii_spec _ A c) as Ac. cbv beta in Ac. rewrite Mc in Ac.
  cbn [implb] in Ac. apply andb_prop in Ac as [Ac Q2].
  apply andb_prop in Ac as [Q0 Q1]. apply Bool.eqb_prop in Q0.
  cbn [remove_class noParentheses]. rewrite Q0, Q1, Q2, R, P. auto.
Qed.

Lemma isFinite_of_Z (v : Z) :
  (0 <= v < 2 ^ 53)%Z -> isFinite (of_Z v) = true.
Proof.
  intros H. destruct v as [|p|p]; [reflexivity| |lia].
  rewrite of_Z_pos by lia. reflexivity.
Qed.

(** On a text of digits, commas, dollar signs and dots the income parser of
    the client reads the number the server's amount normalization reads,
    except that it turns an infinite result into NaN; in particular a text
    of digits, commas and dollar signs spelling an integer below [2 ^ 53]
    is read as that integer by both. *)
Theorem parseMoneyInput_agrees (s : string) :
  moneyDotText s = true ->
  parseMoneyInput s = finiteOrNaN (normalizeAmount s)
  /\ (moneyText s = true -> 0 < countDigits s ->
      (digitsValue s 0 < 2 ^ 53)%Z ->
      parseMoneyInput s = of_Z (digitsValue s 0)).
Proof.
  intros M. destruct (moneyDotText_cleaned s M) as [R P].
  assert (E : parseMoneyInput s = finiteOrNaN (normalizeAmount s)).
  { unfold parseMoneyInput, finiteOrNaN. fold (moneyInputCleaned s).
    rewrite R, (normalizeAmount_plain s P). reflexivity. }
  split; [exact E|]. intros T C B.
  rewrite E, (normalizeAmount_whole s T C). unfold finiteOrNaN.
  rewrite isFinite_of_Z; [reflexivity|].
  split; [apply digitsValue_nonneg; lia | exact B].
Qed.

Lemma parseMoneyInput_agrees_witness :
  moneyDotText "$4,200.50" = true
  /\ parseMoneyInput "$4,200.50" = finiteOrNaN (normalizeAmount "$4,200.50")
  /\ parseMoneyInput "$4,200" = of_Z 4200.
Proof.
  split; [reflexivity|].
  split; [apply (parseMoneyInput_agrees "$4,200.50"); reflexivity|].
  apply (parseMoneyInput_agrees "$4,200"); try reflexivity. vm_compute; lia.
Defined.

Lemma parseMoneyInput_finite_or_NaN (v : string) :
  isFinite (parseMoneyInput v) = true \/ parseMoneyInput v = NaN.
Proof.
  unfold parseMoneyInput.
  destruct (isFinite (StringToNumber _)) eqn:F; [left; exact F | right; reflexivity].
Qed.

Lemma onIncomeChange_valid (o : option number) (v : string) :
  validOverride o = true -> validOverride (onIncomeChange o v) = true.
Proof.
  intros H. unfold onIncomeChange.
  destruct (negb (truthy_string (trim v))); [reflexivity|].
  destruct (parseMoneyInput_finite_or_NaN v) as [F|E].
  - destruct (isNaN (parseMoneyInput v)); [exact H | exact F].
  - rewrite E. exact H.
Qed.

(** The income override is never NaN and never infinite, whatever is typed
    into the income field; a blank text removes the override; and a text
    that is not blank but has no digit, dot or minus sign sets the override
    to zero, because the empty text is read as the number 0. *)
Theorem income_override_invariant :
  (forall vs : list string,
      validOverride (fold_left onIncomeChange vs None) = true)
  /\ (forall o v, allWhiteSpace v = true -> onIncomeChange o v = None)
  /\ (forall o v, allWhiteSpace v = false -> moneyInputCleaned v = "" ->
                  onIncomeChange o v = Some zero).
Proof.
  split; [|split].
  - intros vs. generalize (eq_refl : validOverride None = true).
    generalize (@None number). induction vs as [|v vs IH]; intros o H;
      [exact H|].
    cbn [fold_left]. apply IH, onIncomeChange_valid, H.
  - intros o v W. unfold onIncomeChange. rewrite trim_truthy, W. reflexivity.
  - intros o v W C. unfold onIncomeChange, parseMoneyInput.
    fold (moneyInputCleaned v). rewrite trim_truthy, W, C. reflexivity.
Qed.

Lemma income_override_invariant_witness :
  validOverride (fold_left onIncomeChange ["12"; "1e999"; "x"] None) = true
  /\ allWhiteSpace "  " = true /\ onIncomeChange (Some (of_Z 5)) "  " = None
  /\ allWhiteSpace "n/a" = false /\ moneyInputCleaned "n/a" = ""
  /\ onIncomeChange (Some (of_Z 5)) "n/a" = Some zero.
Proof.
  destruct income_override_invariant as (H1 & H2 & H3).
  split; [apply H1|]. split; [reflexivity|]. split; [apply H2; reflexivity|].
  split; [reflexivity|]. split; [reflexivity|]. apply H3; reflexivity.
Defined.

(** * Witnesses for the aggregation and the advice *)

Lemma advice_spending_without_income_witness :
  forallb (fun t => negb (isIncome t)) threeExpenses = true
  /\ gt (expenses (insights_totals threeExpenses)) zero = true
  /\ insights_advice threeExpenses = [spendingExceedsIncome].
Proof.
  split; [reflexivity|]. split; [vm_compute; reflexivity|].
  apply (advice_spending_without_income threeExpenses);
    [reflexivity | vm_compute; reflexivity].
Defined.

Lemma zero_amount_invisible_witness :
  isZero (tx_amount (mkTx (S754_zero true) "Groceries")) = true
  /\ income (insights_totals
               ([mkTx (of_Z 1000) "Income"]
                ++ mkTx (S754_zero true) "Groceries" :: threeExpenses))
     = income (insights_totals ([mkTx (of_Z 1000) "Income"] ++ threeExpenses))
  /\ expenses (insights_totals
                 ([mkTx (of_Z 1000) "Income"]
                  ++ mkTx (S754_zero true) "Groceries" :: threeExpenses))
     = expenses (insights_totals ([mkTx (of_Z 1000) "Income"] ++ threeExpenses))
  /\ net (insights_totals
            ([mkTx (of_Z 1000) "Income"]
             ++ mkTx (S754_zero true) "Groceries" :: threeExpenses))
     = net (insights_totals ([mkTx (of_Z 1000) "Income"] ++ threeExpenses)).
Proof.
  split; [reflexivity|].
  apply (zero_amount_invisible [mkTx (of_Z 1000) "Income"] threeExpenses
           (mkTx (S754_zero true) "Groceries")).
  reflexivity.
Defined.

Lemma aggregation_as_specified_witness :
  noNaN (scenario ++ constructorExpenses)
  /\ inheritedName "Gas" = false
  /\ inheritedName "constructor" = true
  /\ "constructor" <> "__proto__"
  /\ byCategory (insights_totals (scenario ++ constructorExpenses)) !! "Gas"
     = Num <$> byCategory_spec (scenario ++ constructorExpenses) "Gas"
  /\ byCategory (insights_totals (scenario ++ constructorExpenses))
       !! "constructor"
     = Some (Str (appendNumbers (inheritedText "constructor")
                                [of_Z 5; of_Z 7])).
Proof.
  assert (N : noNaN (scenario ++ constructorExpenses))
    by (repeat constructor).
  assert (Q : "constructor" <> "__proto__") by discriminate.
  destruct (aggregation_as_specified (scenario ++ constructorExpenses))
    as (_ & _ & _ & _ & _ & H6 & H7).
  split; [exact N|]. split; [reflexivity|]. split; [reflexivity|].
  split; [exact Q|].
  split; [exact (H6 N "Gas" eq_refl) | exact (H7 "constructor" eq_refl Q)].
Defined.
